(** * SmartBFT-Go consensus: controller, vote sets and quorum arithmetic

    A shallow embedding of [internal/bft/util.go],
    [internal/bft/controller.go] and of the pool options built by
    [pkg/consensus/consensus.go], with the properties the specification
    states about them.

    Conventions.
    - A Go [uint64] is a [Z] in [0 .. 2^64 - 1]; a Go [int] is the 64-bit
      two's complement integer (amd64, arm64), a [Z] in [-2^63 .. 2^63 - 1],
      with the wrap-around written out.
    - A Go [float64] is a mantissa/exponent pair with a 53-bit mantissa and
      round-to-nearest-even.  The exponent is unbounded, which is exact for
      the magnitudes between 1/2 and 2^66 of the quorum computation.
    - A call to a collaborator (logger, transport, failure detector, view,
      batcher, request pool) appends an event to a trace.
    - A run-time panic is an explicit outcome.

    Part I holds the definitions, Part II the lemmas and theorems. *)

From Stdlib Require Import ZArith Lia List Bool String.
From stdpp Require Import base gmap sets list sorting.

Local Open Scope Z_scope.

(* ===================================================================== *)
(** * Part I: the embedding *)
(* ===================================================================== *)

(** ** Machine integers *)

Module GoInt.

Definition MaxUint64 : Z := 2 ^ 64 - 1.

Definition is_uint64 (z : Z) : Prop := 0 <= z <= MaxUint64.

(** Wrap an integer into the range of the 64-bit signed [int]. *)
Definition wrap_int (z : Z) : Z := (z + 2 ^ 63) mod 2 ^ 64 - 2 ^ 63.

(** The conversion [int(x)] of a [uint64]: same bits, read as signed. *)
Definition int_of_uint64 (x : Z) : Z := wrap_int x.

(** [a - b] on [int]. *)
Definition int_sub (a b : Z) : Z := wrap_int (a - b).

(** [a / b] on [int] for a non-zero divisor: Go truncates toward zero. *)
Definition int_div (a b : Z) : Z := wrap_int (Z.quot a b).

(** [a % b] on [uint64]; a zero divisor is a run-time panic ([None]). *)
Definition uint64_rem (a b : Z) : option Z :=
  if b =? 0 then None else Some (a mod b).

End GoInt.

(** ** Binary floating point, as far as the quorum computation needs it *)

Module GoFloat.

(** The value of [mkFloat m e] is [m * 2^e]. *)
Record float64 : Type := mkFloat { mant : Z; expo : Z }.

(** Round the exact value [m * 2^e] to a 53-bit mantissa, ties to even. *)
Definition round53 (m e : Z) : float64 :=
  if Z.abs m <? 2 ^ 53 then mkFloat m e
  else
    let k := Z.log2 (Z.abs m) - 52 in
    let q := Z.abs m / 2 ^ k in
    let r := Z.abs m mod 2 ^ k in
    let half := 2 ^ (k - 1) in
    let q' := if (half <? r) || ((r =? half) && Z.odd q) then q + 1 else q in
    mkFloat (Z.sgn m * q') (e + k).

(** [float64(x)] for an integer [x]. *)
Definition of_int (x : Z) : float64 := round53 x 0.

(** [a + b]: the exact sum, rounded once. *)
Definition add (a b : float64) : float64 :=
  let e := Z.min (expo a) (expo b) in
  round53 (mant a * 2 ^ (expo a - e) + mant b * 2 ^ (expo b - e)) e.

(** [a / 2.0]: the exponent drops by one, the mantissa is unchanged. *)
Definition div2 (a : float64) : float64 := mkFloat (mant a) (expo a - 1).

(** [math.Ceil(a)]: the least integer not below [a]. *)
Definition Ceil (a : float64) : float64 :=
  if 0 <=? expo a then a
  else mkFloat (- ((- mant a) / 2 ^ (- expo a))) 0.

(** The integer part of [a], truncated toward zero. *)
Definition trunc (a : float64) : Z :=
  if 0 <=? expo a then mant a * 2 ^ expo a
  else Z.quot (mant a) (2 ^ (- expo a)).

(** What [int(f)] yields when [f] lies outside the range of [int] is left
    to the implementation by the Go specification. *)
Class Platform : Type := { overflow : Z -> Z }.

(** [int(a)] for a [float64]. *)
Definition to_int `{Platform} (a : float64) : Z :=
  let v := trunc a in
  if (- 2 ^ 63 <=? v) && (v <? 2 ^ 63) then v else overflow v.

(** amd64: CVTTSD2SQ yields the "integer indefinite" value. *)
Definition amd64 : Platform := {| overflow := fun _ => - 2 ^ 63 |}.

(** arm64: FCVTZS saturates. *)
Definition arm64 : Platform :=
  {| overflow := fun v => if v <? 0 then - 2 ^ 63 else 2 ^ 63 - 1 |}.

End GoFloat.

(** ** util.go: computeQuorum *)

(** [func computeQuorum(N uint64) (Q int, F int)] *)
Definition computeQuorum `{GoFloat.Platform} (N : Z) : Z * Z :=
  let F := GoInt.int_div (GoInt.int_sub (GoInt.int_of_uint64 N) 1) 3 in
  let Q := GoFloat.to_int
             (GoFloat.Ceil
                (GoFloat.div2
                   (GoFloat.add
                      (GoFloat.add (GoFloat.of_int N) (GoFloat.of_int F))
                      (GoFloat.of_int 1)))) in
  (Q, F).

(** The quorum formula in the specification's words:
    [f = floor((N-1)/3)] and [Q = ceil((N + f + 1)/2)]. *)
Definition spec_F (N : Z) : Z := (N - 1) / 3.
Definition spec_Q (N : Z) : Z := - ((- (N + spec_F N + 1)) / 2).

(** ** util.go: getLeaderID *)

(** [sort.Slice(nodes, func(i, j int) bool { return nodes[i] < nodes[j] })]:
    the slice is sorted in place into ascending order.  Equal keys are
    indistinguishable, so the result is the one ascending permutation
    whichever sorting algorithm runs. *)
Definition sort_Slice (nodes : list Z) : list Z := merge_sort Z.le nodes.

(** [func getLeaderID(view uint64, N uint64, nodes []uint64) uint64].
    [None] is a run-time panic: [view % N] with [N = 0], or an index past
    the end of the slice.  The second component is the caller's slice
    after the call, which was sorted in place. *)
Definition getLeaderID (view N : Z) (nodes : list Z) : option Z * list Z :=
  let nodes' := sort_Slice nodes in
  (i ← GoInt.uint64_rem view N; nodes' !! Z.to_nat i, nodes').

(** ** The wire message *)

Definition bytes : Type := list Byte.byte.

(** Modelled from the spec: the message types of package [smartbftprotos],
    whose declarations are not among the sources.  The envelope holds at
    most one of ten variants (section 6, "Wire protocol"). *)
Record Proposal : Type := mkProposal {
  Payload : bytes;
  Header : bytes;
  Metadata : bytes;
  VerificationSequence : Z
}.

Record Signature : Type := mkSignature {
  Signer : Z;
  Value : bytes;
  Msg : bytes
}.

Record PrePrepare : Type := mkPrePrepare {
  PrePrepare_View : Z;
  PrePrepare_Seq : Z;
  PrePrepare_Proposal : Proposal;
  PrePrepare_PrevCommitSignatures : list Signature
}.

Record Prepare : Type := mkPrepare {
  Prepare_View : Z;
  Prepare_Seq : Z;
  Prepare_Digest : string;
  Prepare_Signature : bytes
}.

Record Commit : Type := mkCommit {
  Commit_View : Z;
  Commit_Seq : Z;
  Commit_Digest : string;
  Commit_Signature : Signature;
  Commit_Assist : bool
}.

Record ViewChange : Type := mkViewChange {
  ViewChange_NextView : Z;
  ViewChange_Reason : string
}.

Record ViewData : Type := mkViewData {
  ViewData_NextView : Z;
  ViewData_LastDecision : Proposal;
  ViewData_LastDecisionSignatures : list Signature;
  ViewData_InFlightProposal : option Proposal;
  ViewData_InFlightPrepares : list (Z * Prepare)
}.

Record HeartBeat : Type := mkHeartBeat {
  HeartBeat_View : Z;
  HeartBeat_Seq : Z
}.

Record StateTransferResponse : Type := mkStateTransferResponse {
  StateTransferResponse_ViewNum : Z;
  StateTransferResponse_Sequence : Z
}.

Inductive Content : Type :=
| Message_PrePrepare (pp : PrePrepare)
| Message_Prepare (prp : Prepare)
| Message_Commit (cmt : Commit)
| Message_ViewChange (vc : ViewChange)
| Message_ViewData (vd : ViewData)
| Message_NewView (view : Z) (viewData : list ViewData)
| Message_HeartBeat (hb : HeartBeat)
| Message_HeartBeatResponse (hbr : HeartBeat)
| Message_StateTransferRequest
| Message_StateTransferResponse (str : StateTransferResponse).

(** A [*protos.Message]: [None] is the nil pointer, [Some None] a message
    whose content is unset. *)
Definition Message : Type := option (option Content).

(** The generated getters return nil on a nil receiver and on a message
    that holds another variant. *)
Definition GetPrePrepare (m : Message) : option PrePrepare :=
  match m with
  | Some (Some (Message_PrePrepare pp)) => Some pp
  | _ => None
  end.

Definition GetPrepare (m : Message) : option Prepare :=
  match m with
  | Some (Some (Message_Prepare prp)) => Some prp
  | _ => None
  end.

Definition GetCommit (m : Message) : option Commit :=
  match m with
  | Some (Some (Message_Commit cmt)) => Some cmt
  | _ => None
  end.

(** ** util.go: viewNumber and proposalSequence *)

(** [func viewNumber(m *protos.Message) uint64] *)
Definition viewNumber (m : Message) : Z :=
  match GetPrePrepare m with
  | Some pp => PrePrepare_View pp
  | None =>
      match GetPrepare m with
      | Some prp => Prepare_View prp
      | None =>
          match GetCommit m with
          | Some cmt => Commit_View cmt
          | None => GoInt.MaxUint64
          end
      end
  end.

(** [func proposalSequence(m *protos.Message) uint64] *)
Definition proposalSequence (m : Message) : Z :=
  match GetPrePrepare m with
  | Some pp => PrePrepare_Seq pp
  | None =>
      match GetPrepare m with
      | Some prp => Prepare_Seq prp
      | None =>
          match GetCommit m with
          | Some cmt => Commit_Seq cmt
          | None => GoInt.MaxUint64
          end
      end
  end.

(** Modelled from the spec: [IsViewMessage], declared in [view.go], which
    is not among the sources.  A view-phase message is one that contains a
    PrePrepare, a Prepare or a Commit. *)
Definition IsViewMessage (m : Message) : bool :=
  bool_decide (is_Some (GetCommit m)) ||
  bool_decide (is_Some (GetPrepare m)) ||
  bool_decide (is_Some (GetPrePrepare m)).

(** ** util.go: voteSet *)

Module VoteSet.

(** [type vote struct { *protos.Message; sender uint64 }] *)
Record vote : Type := mkVote {
  vote_Message : Message;
  sender : Z
}.

(** A buffered channel [chan *vote]: the queued votes, oldest first, and
    the capacity given to [make]. *)
Record chan : Type := mkChan {
  queue : list vote;
  capacity : nat
}.

(** [type voteSet struct].  [None] in [voted] or [votes] is the nil map or
    the nil channel of a vote set on which [clear] was never called. *)
Record voteSet : Type := mkVoteSet {
  validVote : Z -> Message -> bool;
  voted : option (gset Z);
  votes : option chan
}.

(** [func (vs *voteSet) clear(n uint64)], where [make] returns: fresh map,
    fresh channel. *)
Definition clear (vs : voteSet) (n : Z) : voteSet :=
  {| validVote := validVote vs;
     voted := Some ∅;
     votes := Some {| queue := []; capacity := Z.to_nat n |} |}.

(** How a call ends: it returns, it panics, or it stays blocked on the
    channel send with the vote [v] in hand. *)
Inductive outcome : Type :=
| Returned
| Panicked
| BlockedOnSend (v : vote).

(** [_, hasVoted := vs.voted[voter]]: a lookup in a nil map finds nothing. *)
Definition hasVoted (vs : voteSet) (voter : Z) : bool :=
  match voted vs with
  | Some s => bool_decide (voter ∈ s)
  | None => false
  end.

(** [vs.votes <- v]: the send goes through when the buffer has room;
    it blocks on a full buffer and on the nil channel. *)
Definition chan_send (c : option chan) (v : vote) : option chan :=
  match c with
  | Some ch =>
      if (length (queue ch) <? capacity ch)%nat
      then Some {| queue := queue ch ++ [v]; capacity := capacity ch |}
      else None
  | None => None
  end.

(** [func (vs *voteSet) registerVote(voter uint64, message *protos.Message)].
    The result is the outcome, the vote set after the call, and the votes
    that entered the channel during the call. *)
Definition registerVote (vs : voteSet) (voter : Z) (message : Message)
  : outcome * voteSet * list vote :=
  if negb (validVote vs voter message) then (Returned, vs, [])
  else if hasVoted vs voter then (Returned, vs, [])
  else
    match voted vs with
    | None => (Panicked, vs, [])
    | Some s =>
        let vs1 := {| validVote := validVote vs;
                      voted := Some ({[voter]} ∪ s);
                      votes := votes vs |} in
        let v := {| vote_Message := message; sender := voter |} in
        match chan_send (votes vs1) v with
        | Some ch => (Returned,
                      {| validVote := validVote vs1;
                         voted := voted vs1;
                         votes := Some ch |}, [v])
        | None => (BlockedOnSend v, vs1, [])
        end
    end.

(** *** A vote set in use

    The goroutine that owns the vote set calls [registerVote]; the votes
    are taken from the channel by a receive.  [sent] records every vote
    that has entered the channel so far. *)
Inductive op : Type :=
| Register (voter : Z) (message : Message)
| Receive.

Record state : Type := mkState {
  st_vs : voteSet;
  st_status : outcome;
  st_sent : list vote
}.

Definition start (vs : voteSet) : state :=
  {| st_vs := vs; st_status := Returned; st_sent := [] |}.

(** [<-vs.votes].  A receive takes the oldest queued vote; a sender that
    was blocked then completes its send.  On an empty queue the blocked
    sender hands its vote over directly; with nobody sending, and on the
    nil channel, the receive itself blocks and nothing changes. *)
Definition receive (st : state) : state :=
  match votes (st_vs st) with
  | None => st
  | Some ch =>
      match queue ch, st_status st with
      | _ :: rest, BlockedOnSend p =>
          {| st_vs := {| validVote := validVote (st_vs st);
                         voted := voted (st_vs st);
                         votes := Some {| queue := rest ++ [p];
                                          capacity := capacity ch |} |};
             st_status := Returned;
             st_sent := st_sent st ++ [p] |}
      | _ :: rest, _ =>
          {| st_vs := {| validVote := validVote (st_vs st);
                         voted := voted (st_vs st);
                         votes := Some {| queue := rest;
                                          capacity := capacity ch |} |};
             st_status := st_status st;
             st_sent := st_sent st |}
      | [], BlockedOnSend p =>
          {| st_vs := st_vs st;
             st_status := Returned;
             st_sent := st_sent st ++ [p] |}
      | [], _ => st
      end
  end.

(** One operation.  A goroutine that panicked or is blocked makes no
    further call. *)
Definition exec (st : state) (o : op) : state :=
  match o with
  | Register voter message =>
      match st_status st with
      | Returned =>
          let '(r, vs', new) := registerVote (st_vs st) voter message in
          {| st_vs := vs'; st_status := r; st_sent := st_sent st ++ new |}
      | _ => st
      end
  | Receive => receive st
  end.

Definition run (st : state) (ops : list op) : state := fold_left exec ops st.

(** The votes that are in the channel or about to enter it. *)
Definition in_flight (st : state) : list vote :=
  st_sent st ++ match st_status st with BlockedOnSend p => [p] | _ => [] end.

(** Every vote that is in flight comes from a recorded voter, and no two
    of them from the same voter. *)
Definition one_vote_per_voter (st : state) : Prop :=
  NoDup (sender <$> in_flight st) /\
  forall v, In v (in_flight st) -> hasVoted (st_vs st) (sender v) = true.

End VoteSet.

(** ** controller.go *)

Module controller.

(** [types.RequestInfo] *)
Record RequestInfo : Type := mkRequestInfo {
  ClientID : string;
  RequestInfo_ID : string
}.

(** [type RequestPool interface], as far as [SubmitRequest] uses it.  The
    pool has a state of its own; [Submit] returns nil ([None]) or an
    error, and the pool after the call. *)
Class RequestPool : Type := {
  pool : Type;
  error : Type;
  Submit : pool -> bytes -> option error * pool
}.

(** [api.RequestInspector] *)
Class RequestInspector : Type := {
  RequestID : bytes -> RequestInfo
}.

(** The fields of [View] that [startView] fills with data; the others are
    handles on collaborators. *)
Record View : Type := mkView {
  View_N : Z;
  LeaderID : Z;
  SelfID : Z;
  Quorum : Z;
  Number : Z;
  ProposalSequence : Z
}.

(** [type Future interface { Wait() }]: the handle [View.Start] returns,
    named by the view whose end it awaits; [None] is the nil interface,
    on which a call of [Wait] panics. *)
Definition Future : Type := option View.

(** How a method ends. *)
Inductive outcome (A : Type) : Type :=
| Returned (a : A)
| Panicked.
Arguments Returned {A} a.
Arguments Panicked {A}.

Section Controller.

Context `{GoFloat.Platform} `{RequestPool} `{RequestInspector}.

(** [type Controller struct].  [leaderToken] is the one-slot channel:
    [None] before [Start] made it, [Some true] when it holds the token. *)
Record Controller : Type := mkController {
  ID : Z;
  N : Z;
  RequestPool_state : pool;
  quorum : Z;
  currView : View;
  currViewNumber : Z;
  viewEnd : Future;
  leaderToken : option bool;
  verificationSequence : Z
}.

(** An argument of a log line. *)
Inductive logArg : Type :=
| ArgUint64 (z : Z)
| ArgInt (z : Z)
| ArgInfo (info : RequestInfo)
| ArgError (e : error)
| ArgMessage (m : Message).

(** The calls the controller makes on its collaborators. *)
Inductive event : Type :=
| Logger_Debugf (format : string) (args : list logArg)
| Logger_Warnf (format : string) (args : list logArg)
| RequestPool_Submit (request : bytes) (err : option error)
| Comm_SendTransaction (targetID : Z) (request : bytes)
| FailureDetector_Complain
| Batcher_Reset
| View_HandleMessage (v : View) (sender : Z) (m : Message)
| View_Abort (v : View)
| View_Start (v : View)
| Future_Wait (f : Future).

(** A method of the controller: from the state before the call to the
    outcome, the state after it, and the collaborator calls in order. *)
Definition M (A : Type) : Type := Controller -> outcome A * Controller * list event.

#[local] Instance M_ret : MRet M := fun A a c => (Returned a, c, []).

#[local] Instance M_bind : MBind M := fun A B f m c =>
  match m c with
  | (Returned a, c1, t1) =>
      let '(r, c2, t2) := f a c1 in (r, c2, t1 ++ t2)
  | (Panicked, c1, t1) => (Panicked, c1, t1)
  end.

Definition gets {A : Type} (f : Controller -> A) : M A :=
  fun c => (Returned (f c), c, []).

Definition modify (f : Controller -> Controller) : M unit :=
  fun c => (Returned tt, f c, []).

Definition emit (e : event) : M unit := fun c => (Returned tt, c, [e]).

Definition panic {A : Type} : M A := fun c => (Panicked, c, []).

Definition result_of {A : Type} (r : outcome A * Controller * list event) : outcome A :=
  fst (fst r).
Definition state_of {A : Type} (r : outcome A * Controller * list event) : Controller :=
  snd (fst r).
Definition trace_of {A : Type} (r : outcome A * Controller * list event) : list event :=
  snd r.

Definition set_currViewNumber (v : Z) (c : Controller) : Controller :=
  {| ID := ID c; N := N c; RequestPool_state := RequestPool_state c;
     quorum := quorum c; currView := currView c; currViewNumber := v;
     viewEnd := viewEnd c; leaderToken := leaderToken c;
     verificationSequence := verificationSequence c |}.

Definition set_currView (v : View) (c : Controller) : Controller :=
  {| ID := ID c; N := N c; RequestPool_state := RequestPool_state c;
     quorum := quorum c; currView := v; currViewNumber := currViewNumber c;
     viewEnd := viewEnd c; leaderToken := leaderToken c;
     verificationSequence := verificationSequence c |}.

Definition set_viewEnd (f : Future) (c : Controller) : Controller :=
  {| ID := ID c; N := N c; RequestPool_state := RequestPool_state c;
     quorum := quorum c; currView := currView c;
     currViewNumber := currViewNumber c;
     viewEnd := f; leaderToken := leaderToken c;
     verificationSequence := verificationSequence c |}.

Definition set_leaderToken (t : option bool) (c : Controller) : Controller :=
  {| ID := ID c; N := N c; RequestPool_state := RequestPool_state c;
     quorum := quorum c; currView := currView c;
     currViewNumber := currViewNumber c;
     viewEnd := viewEnd c; leaderToken := t;
     verificationSequence := verificationSequence c |}.

Definition set_quorum (q : Z) (c : Controller) : Controller :=
  {| ID := ID c; N := N c; RequestPool_state := RequestPool_state c;
     quorum := q; currView := currView c;
     currViewNumber := currViewNumber c;
     viewEnd := viewEnd c; leaderToken := leaderToken c;
     verificationSequence := verificationSequence c |}.

Definition set_RequestPool_state (p : pool) (c : Controller) : Controller :=
  {| ID := ID c; N := N c; RequestPool_state := p;
     quorum := quorum c; currView := currView c;
     currViewNumber := currViewNumber c;
     viewEnd := viewEnd c; leaderToken := leaderToken c;
     verificationSequence := verificationSequence c |}.

(** [func (c *Controller) getCurrentViewNumber() uint64] *)
Definition getCurrentViewNumber : M Z := gets currViewNumber.

(** [func (c *Controller) setCurrentViewNumber(viewNumber uint64)] *)
Definition setCurrentViewNumber (viewNumber : Z) : M unit :=
  modify (set_currViewNumber viewNumber).

(** [func (c *Controller) leaderID() uint64] *)
Definition leaderID : M Z :=
  v ← getCurrentViewNumber;
  n ← gets N;
  match GoInt.uint64_rem v n with
  | Some leader => mret leader
  | None => panic
  end.

(** [func (c *Controller) iAmTheLeader() (bool, uint64)] *)
Definition iAmTheLeader : M (bool * Z) :=
  leader ← leaderID;
  id ← gets ID;
  mret (leader =? id, leader).

(** [func (c *Controller) computeQuorum() int] *)
Definition computeQuorum : M Z :=
  n ← gets N;
  let f := GoInt.int_div (GoInt.int_sub (GoInt.int_of_uint64 n) 1) 3 in
  let q := GoFloat.to_int
             (GoFloat.Ceil
                (GoFloat.div2
                   (GoFloat.add
                      (GoFloat.add (GoFloat.of_int n) (GoFloat.of_int f))
                      (GoFloat.of_int 1)))) in
  emit (Logger_Debugf
          "The number of nodes (N) is %d, F is %d, and the quorum size is %d"
          [ArgUint64 n; ArgInt f; ArgInt q]);;
  mret q.

(** [c.RequestPool.Submit(request)] *)
Definition call_Submit (request : bytes) : M (option error) :=
  fun c =>
    let '(err, p) := Submit (RequestPool_state c) request in
    (Returned err, set_RequestPool_state p c, [RequestPool_Submit request err]).

(** [func (c *Controller) SubmitRequest(request []byte) error] *)
Definition SubmitRequest (request : bytes) : M (option error) :=
  let info := RequestID request in
  err ← call_Submit request;
  match err with
  | Some e =>
      emit (Logger_Warnf "Request %s was not submitted, error: %s"
              [ArgInfo info; ArgError e]);;
      mret (Some e)
  | None =>
      emit (Logger_Debugf "Request %s was submitted" [ArgInfo info]);;
      mret None
  end.

(** [func (c *Controller) OnRequestTimeout(request []byte, info types.RequestInfo)] *)
Definition OnRequestTimeout (request : bytes) (info : RequestInfo) : M unit :=
  '(iAm, leader) ← iAmTheLeader;
  if (iAm : bool) then
    emit (Logger_Warnf
            "Request %s timeout expired, this node is the leader, nothing to do"
            [ArgInfo info])
  else
    emit (Logger_Warnf
            "Request %s timeout expired, forwarding request to leader: %d"
            [ArgInfo info; ArgUint64 leader]);;
    emit (Comm_SendTransaction leader request).

(** [func (c *Controller) OnLeaderFwdRequestTimeout(request []byte, info types.RequestInfo)] *)
Definition OnLeaderFwdRequestTimeout (request : bytes) (info : RequestInfo) : M unit :=
  '(iAm, leader) ← iAmTheLeader;
  if (iAm : bool) then
    emit (Logger_Warnf
            "Request %s leader-forwarding timeout expired, this node is the leader, nothing to do"
            [ArgInfo info])
  else
    emit (Logger_Warnf
            "Request %s leader-forwarding timeout expired, complaining about leader: %d"
            [ArgInfo info; ArgUint64 leader]);;
    emit FailureDetector_Complain.

(** [func (c *Controller) OnAutoRemoveTimeout(requestInfo types.RequestInfo)] *)
Definition OnAutoRemoveTimeout (requestInfo : RequestInfo) : M unit :=
  emit (Logger_Warnf
          "Request %s auto-remove timeout expired, removed from the request pool"
          [ArgInfo requestInfo]).

(** [func (c *Controller) ProcessMessages(sender uint64, m *protos.Message)] *)
Definition ProcessMessages (sender : Z) (m : Message) : M unit :=
  (if IsViewMessage m then
     v ← gets currView;
     emit (View_HandleMessage v sender m)
   else mret tt);;
  id ← gets ID;
  emit (Logger_Debugf "Node %d handled message %v from %d with seq %d"
          [ArgUint64 id; ArgMessage m; ArgUint64 sender;
           ArgUint64 (proposalSequence m)]).

(** [func (c *Controller) startView(proposalSequence uint64) Future] *)
Definition startView (proposalSequence : Z) : M Future :=
  n ← gets N;
  leader ← leaderID;
  id ← gets ID;
  q ← gets quorum;
  number ← getCurrentViewNumber;
  let view := {| View_N := n; LeaderID := leader; SelfID := id; Quorum := q;
                 Number := number; ProposalSequence := proposalSequence |} in
  modify (set_currView view);;
  emit (Logger_Debugf "Starting view with number %d" [ArgUint64 (Number view)]);;
  emit (View_Start view);;
  mret (Some view).

(** [func (c *Controller) acquireLeaderToken()]: a send that does not
    block; on a full slot, and on the nil channel, nothing happens. *)
Definition acquireLeaderToken : M unit :=
  modify (fun c =>
    match leaderToken c with
    | Some _ => set_leaderToken (Some true) c
    | None => c
    end).

(** [func (c *Controller) relinquishLeaderToken()]: a receive that does
    not block. *)
Definition relinquishLeaderToken : M unit :=
  modify (fun c =>
    match leaderToken c with
    | Some _ => set_leaderToken (Some false) c
    | None => c
    end).

(** [func (c *Controller) changeView(newViewNumber uint64, newProposalSequence uint64)] *)
Definition changeView (newViewNumber newProposalSequence : Z) : M unit :=
  relinquishLeaderToken;;
  latestView ← getCurrentViewNumber;
  if latestView >? newViewNumber then
    emit (Logger_Debugf "Got view change to %d but already at %d"
            [ArgUint64 newViewNumber; ArgUint64 latestView])
  else
    emit (Logger_Debugf "Aborting current view with number %d"
            [ArgUint64 latestView]);;
    v ← gets currView;
    emit (View_Abort v);;
    f ← gets viewEnd;
    match f with
    | Some _ => emit (Future_Wait f)
    | None => panic
    end;;
    setCurrentViewNumber newViewNumber;;
    f' ← startView newProposalSequence;
    modify (set_viewEnd f');;
    '(iAm, _) ← iAmTheLeader;
    if (iAm : bool) then
      emit Batcher_Reset;;
      acquireLeaderToken
    else mret tt.

(** [func (c *Controller) Start(startViewNumber uint64, startProposalSequence uint64) Future],
    up to the point where it starts the goroutine of the run loop. *)
Definition Start (startViewNumber startProposalSequence : Z) : M unit :=
  modify (set_leaderToken (Some false));;
  q ← computeQuorum;
  modify (set_quorum q);;
  modify (set_currViewNumber startViewNumber);;
  f ← startView startProposalSequence;
  modify (set_viewEnd f);;
  '(iAm, _) ← iAmTheLeader;
  if (iAm : bool) then acquireLeaderToken else mret tt.

(** The run loop takes view changes off the [viewChange] channel one at a
    time ([case newView := <-c.viewChange]); a panic ends the loop. *)
Fixpoint changeViews (l : list (Z * Z)) : M unit :=
  match l with
  | [] => mret tt
  | (newViewNumber, newProposalSequence) :: l' =>
      changeView newViewNumber newProposalSequence;;
      changeViews l'
  end.

End Controller.

End controller.

(** ** consensus.go: the pool options *)

Module consensus.

(** [algorithm.PoolOptions]; the three timeouts are [time.Duration]s, that
    is, [int64] nanoseconds. *)
Record PoolOptions : Type := mkPoolOptions {
  QueueSize : Z;
  RequestTimeout : Z;
  LeaderFwdTimeout : Z;
  AutoRemoveTimeout : Z
}.

Definition DefaultRequestPoolSize : Z := 200.

Section Start.

(** [algorithm.DefaultRequestTimeout], a constant of type [time.Duration]
    declared with the request pool, outside the sources at hand. *)
Variable DefaultRequestTimeout : Z.

(** The options [Consensus.Start] builds.  The quotients are constant
    expressions on a typed integer constant: they truncate toward zero. *)
Definition Start_opts : PoolOptions :=
  {| QueueSize := DefaultRequestPoolSize;
     RequestTimeout := Z.quot DefaultRequestTimeout 100;
     LeaderFwdTimeout := Z.quot DefaultRequestTimeout 5;
     AutoRemoveTimeout := DefaultRequestTimeout |}.

End Start.

End consensus.

(** ** Sample collaborators

    Concrete instances of the interfaces, to run the controller on. *)

#[global] Instance byte_eq_dec : EqDecision Byte.byte := Byte.byte_eq_dec.

Inductive PoolError : Type :=
| PoolFull
| DuplicateRequest.

(** Modelled from the spec: the request pool, whose implementation is not
    among the sources.  [Submit] admits a request unless the pool is full
    or holds the request already (section 4.4). *)
Definition bounded_pool (size : nat) : controller.RequestPool :=
  {| controller.pool := list bytes;
     controller.error := PoolError;
     controller.Submit := fun p request =>
       if bool_decide (request ∈ p) then (Some DuplicateRequest, p)
       else if (length p <? size)%nat then (None, p ++ [request])
       else (Some PoolFull, p) |}.

(** An inspector that takes the bytes of the request for its identifier. *)
Definition plain_inspector : controller.RequestInspector :=
  {| controller.RequestID := fun request =>
       {| controller.ClientID := "alice";
          controller.RequestInfo_ID := string_of_list_byte request |} |}.

Definition zero_View : controller.View :=
  {| controller.View_N := 0; controller.LeaderID := 0; controller.SelfID := 0;
     controller.Quorum := 0; controller.Number := 0;
     controller.ProposalSequence := 0 |}.

(** A controller before [Start]: the configuration is set, everything
    else has its zero value. *)
Definition configured (id n : Z) : @controller.Controller (bounded_pool 200) :=
  {| controller.ID := id;
     controller.N := n;
     controller.RequestPool_state := [] : @controller.pool (bounded_pool 200);
     controller.quorum := 0;
     controller.currView := zero_View;
     controller.currViewNumber := 0;
     controller.viewEnd := None;
     controller.leaderToken := None;
     controller.verificationSequence := 0 |}.

(** Node [id] of a cluster of [n] nodes, started in view [view] at
    proposal sequence 1. *)
Definition node (id n view : Z) : @controller.Controller (bounded_pool 200) :=
  controller.state_of (@controller.Start GoFloat.amd64 _ view 1 (configured id n)).

Definition heartbeat_message : Message :=
  Some (Some (Message_HeartBeat {| HeartBeat_View := 0; HeartBeat_Seq := 1 |})).

Definition prepare_message : Message :=
  Some (Some (Message_Prepare
    {| Prepare_View := 3; Prepare_Seq := 7;
       Prepare_Digest := "d"; Prepare_Signature := [] |})).

Definition other_prepare_message : Message :=
  Some (Some (Message_Prepare
    {| Prepare_View := 3; Prepare_Seq := 7;
       Prepare_Digest := "e"; Prepare_Signature := [] |})).

(** The vote set of the Prepare phase of a view of four nodes, after
    [clear(4)], and the same vote set once node 1 has voted. *)
Definition fresh_prepares : VoteSet.voteSet :=
  VoteSet.clear
    {| VoteSet.validVote := fun _ m => bool_decide (is_Some (GetPrepare m));
       VoteSet.voted := None;
       VoteSet.votes := None |} 4.

Definition voted_prepares : VoteSet.voteSet :=
  {| VoteSet.validVote := VoteSet.validVote fresh_prepares;
     VoteSet.voted := Some {[1]};
     VoteSet.votes :=
       Some {| VoteSet.queue := [VoteSet.mkVote prepare_message 1];
               VoteSet.capacity := 4 |} |}.

Definition sample_request : bytes := [Byte.x74; Byte.x78; Byte.x31].

Definition sample_info : controller.RequestInfo :=
  @controller.RequestID plain_inspector sample_request.

(** ** util.go: the in-flight proposal *)

Module InFlight.

(** [type inFlightProposalData struct]: a pointer to the proposal and the
    map of prepares; [None] is the nil pointer and the nil map. *)
Record inFlightProposalData : Type := mkData {
  proposal : option Proposal;
  prepares : option (gmap Z Prepare)
}.

(** [type InFlightData struct { v atomic.Value }]: [None] until the first
    [Store]. *)
Definition InFlightData : Type := option inFlightProposalData.

(** [func (ifp *InFlightData) InFlightProposal() *types.Proposal] *)
Definition InFlightProposal (ifp : InFlightData) : option Proposal :=
  match ifp with
  | None => None
  | Some data => proposal data
  end.

(** [func (ifp *InFlightData) InFlightPrepares() map[uint64]*protos.Prepare] *)
Definition InFlightPrepares (ifp : InFlightData) : option (gmap Z Prepare) :=
  match ifp with
  | None => None
  | Some data => prepares data
  end.

(** [func (ifp *InFlightData) StoreProposal(prop types.Proposal)]: a copy
    of the proposal is stored, with no prepares. *)
Definition StoreProposal (ifp : InFlightData) (prop : Proposal) : InFlightData :=
  Some {| proposal := Some prop; prepares := None |}.

Section StorePrepares.

(** [types.Proposal.Digest], declared with the proposal outside the
    sources at hand. *)
Variable Digest : Proposal -> string.

(** The body of [for signer, sig := range signatures]. *)
Definition add_prepare (view seq : Z) (dig : string)
    (signer : Z) (sig : bytes) (prepares : gmap Z Prepare) : gmap Z Prepare :=
  <[signer := {| Prepare_View := view; Prepare_Seq := seq;
                 Prepare_Digest := dig; Prepare_Signature := sig |}]> prepares.

(** [func (ifp *InFlightData) StorePrepares(view, seq uint64, signatures map[uint64][]byte)];
    [None] is the panic "stored prepares but proposal is not initialized".
    The loop visits the signatures in the order the map yields them. *)
Definition StorePrepares (ifp : InFlightData) (view seq : Z)
    (signatures : gmap Z bytes) : option InFlightData :=
  match InFlightProposal ifp with
  | None => None
  | Some prop =>
      let dig := Digest prop in
      let prepares := map_fold (add_prepare view seq dig) ∅ signatures in
      Some (Some {| proposal := Some prop; prepares := Some prepares |})
  end.

End StorePrepares.

End InFlight.

(** ** util.go: ProposalMaker *)

Module ProposalMaker.

(** [type ProposalMaker struct], the data fields; [restoreOnceFromWAL] is
    the [sync.Once]: [true] once its function has run. *)
Record ProposalMaker : Type := mkProposalMaker {
  N : Z;
  SelfID : Z;
  restoreOnceFromWAL : bool
}.

Section NewProposer.

(** The type of Go errors and [State.Restore(view)], which may rewrite the
    view it is handed; both belong to collaborators. *)
Variable error : Type.
Variable Restore : controller.View -> option error * controller.View.

Definition set_ProposalSequence (s : Z) (v : controller.View) : controller.View :=
  {| controller.View_N := controller.View_N v;
     controller.LeaderID := controller.LeaderID v;
     controller.SelfID := controller.SelfID v;
     controller.Quorum := controller.Quorum v;
     controller.Number := controller.Number v;
     controller.ProposalSequence := s |}.

Definition set_Number (n : Z) (v : controller.View) : controller.View :=
  {| controller.View_N := controller.View_N v;
     controller.LeaderID := controller.LeaderID v;
     controller.SelfID := controller.SelfID v;
     controller.Quorum := controller.Quorum v;
     controller.Number := n;
     controller.ProposalSequence := controller.ProposalSequence v |}.

(** [func (pm *ProposalMaker) NewProposer(leader, proposalSequence, viewNum uint64, quorumSize int) Proposer].
    The result is the view, or a panic when the restoration fails
    ([Logger.Panicf]), and the proposal maker after the call. *)
Definition NewProposer (pm : ProposalMaker)
    (leader proposalSequence viewNum quorumSize : Z)
  : controller.outcome controller.View * ProposalMaker :=
  let view := {| controller.View_N := N pm;
                 controller.LeaderID := leader;
                 controller.SelfID := SelfID pm;
                 controller.Quorum := quorumSize;
                 controller.Number := viewNum;
                 controller.ProposalSequence := proposalSequence |} in
  let pm' := {| N := N pm; SelfID := SelfID pm; restoreOnceFromWAL := true |} in
  let restored :=
    if restoreOnceFromWAL pm then (None, view) else Restore view in
  match restored with
  | (Some _, _) => (controller.Panicked, pm')
  | (None, view) =>
      let view :=
        if proposalSequence >? controller.ProposalSequence view
        then set_ProposalSequence proposalSequence view else view in
      let view :=
        if viewNum >? controller.Number view
        then set_Number viewNum view else view in
      (controller.Returned view, pm')
  end.

End NewProposer.

End ProposalMaker.

(** ** consensus.go: BroadcastConsensus *)

(** [func (c *Consensus) BroadcastConsensus(m *protos.Message)]: the calls
    of [Comm.SendConsensus], in order; [Nodes] is what [Comm.Nodes()]
    returned. *)
Fixpoint BroadcastConsensus (SelfID : Z) (Nodes : list Z) (m : Message)
  : list (Z * Message) :=
  match Nodes with
  | [] => []
  | node :: rest =>
      if bool_decide (SelfID = node) then BroadcastConsensus SelfID rest m
      else (node, m) :: BroadcastConsensus SelfID rest m
  end.

(** ** Vote sets: a channel with room *)

Module VoteSetRoom.

Import VoteSet.

(** The voters that a list of operations registers. *)
Definition voters_within (members : gset Z) (ops : list op) : Prop :=
  Forall (fun o => match o with
                   | Register voter _ => voter ∈ members
                   | Receive => True
                   end) ops.

(** The vote set has room: it is not blocked, its map records members
    only, and its channel holds no more votes than the map has voters. *)
Definition has_room (members : gset Z) (n : nat) (st : state) : Prop :=
  st_status st = Returned /\
  exists s q,
    voted (st_vs st) = Some s /\
    votes (st_vs st) = Some {| queue := q; capacity := n |} /\
    s ⊆ members /\ (length q <= size s)%nat.

(** [make(chan *vote, n)] does not return for every [n]: a size that
    does not fit an [int] makes it panic ("makechan: size out of range"),
    and so does a buffer larger than the runtime can allocate.
    [maxChanSize] is the largest size that the runtime at hand accepts;
    [None] is the call that does not return. *)
Definition make_chan (maxChanSize n : Z) : option chan :=
  if (n <=? maxChanSize) && (n <? 2 ^ 63)
  then Some {| queue := []; capacity := Z.to_nat n |}
  else None.

(** [func (vs *voteSet) clear(n uint64)], with the panic of [make]. *)
Definition clear (maxChanSize : Z) (vs : voteSet) (n : Z) : option voteSet :=
  match make_chan maxChanSize n with
  | Some ch => Some {| validVote := validVote vs; voted := Some ∅; votes := Some ch |}
  | None => None
  end.

End VoteSetRoom.

(** ** controller.go: who may hold the leader token *)

Module LeaderToken.

(** The token is in the channel only on the node that leads the current
    view. *)
Definition only_for_leader `{controller.RequestPool}
    (c : controller.Controller) : Prop :=
  controller.leaderToken c = Some true ->
  controller.N c <> 0 /\
  controller.currViewNumber c mod controller.N c = controller.ID c.

End LeaderToken.

(** ** controller.go: the run loop *)

Module run_loop.

(** [type decision struct] *)
Record decision : Type := mkDecision {
  decision_proposal : Proposal;
  decision_signatures : list Signature;
  decision_requests : list controller.RequestInfo
}.

(** [type viewInfo struct] *)
Record viewInfo : Type := mkViewInfo {
  viewInfo_viewNumber : Z;
  viewInfo_proposalSeq : Z
}.

(** The other methods of [RequestPool] that the controller calls, and the
    functions of the verifier and the assembler. *)
Class Collaborators `{controller.RequestPool} : Type := {
  RemoveRequest : controller.pool -> controller.RequestInfo
                  -> option controller.error * controller.pool;
  Prune : controller.pool -> (bytes -> option controller.error) -> controller.pool;
  VerifyRequest : bytes -> controller.RequestInfo * option controller.error;
  AssembleProposal : bytes -> list bytes -> Proposal * list bytes
}.

(** How a method of the loop ends: it returns, it panics, or it waits in a
    call that has not returned. *)
Inductive status (A : Type) : Type :=
| Done (a : A)
| Panic
| Waiting.
Arguments Done {A} a.
Arguments Panic {A}.
Arguments Waiting {A}.

Section Loop.

Context `{controller.RequestPool} `{!Collaborators}.

(** The controller together with its stop channel: [None] before [Start]
    made it, [Some true] once it is closed. *)
Record Replica : Type := mkReplica {
  ctl : controller.Controller;
  stopChan : option bool
}.

(** The calls on collaborators: those of the methods above, and those
    that the loop adds. *)
Inductive call : Type :=
| Controller_call (e : controller.event)
| Logger_Infof (format : string) (args : list controller.logArg)
| Logger_Debugf_proposal (format : string) (proposal : Proposal)
| Application_Deliver (proposal : Proposal) (signatures : list Signature)
| deliverChan_send
| Verifier_VerificationSequence (sequence : Z)
| RequestPool_RemoveRequest (info : controller.RequestInfo)
    (err : option controller.error)
| RequestPool_Prune
| Batcher_NextBatch (batch : list bytes)
| Batcher_PopRemainder (remainder : list bytes)
| Batcher_BatchRemainder (remainder : list bytes)
| Batcher_Close
| View_GetMetadata (metadata : bytes)
| Assembler_AssembleProposal (metadata : bytes) (requests : list bytes)
| View_Propose (v : controller.View) (proposal : Proposal).

Definition L (A : Type) : Type := Replica -> status A * Replica * list call.

#[local] Instance L_ret : MRet L := fun A a r => (Done a, r, []).

#[local] Instance L_bind : MBind L := fun A B f m r =>
  match m r with
  | (Done a, r1, t1) => let '(o, r2, t2) := f a r1 in (o, r2, t1 ++ t2)
  | (Panic, r1, t1) => (Panic, r1, t1)
  | (Waiting, r1, t1) => (Waiting, r1, t1)
  end.

Definition status_of {A : Type} (x : status A * Replica * list call) : status A :=
  fst (fst x).
Definition replica_of {A : Type} (x : status A * Replica * list call) : Replica :=
  snd (fst x).
Definition calls_of {A : Type} (x : status A * Replica * list call) : list call :=
  snd x.

Definition call_out (e : call) : L unit := fun r => (Done tt, r, [e]).

Definition set_ctl (c : controller.Controller) (r : Replica) : Replica :=
  {| ctl := c; stopChan := stopChan r |}.

Definition set_stopChan (s : option bool) (r : Replica) : Replica :=
  {| ctl := ctl r; stopChan := s |}.

(** A method of the controller, run on the controller of the replica. *)
Definition lift {A : Type} (m : controller.M A) : L A := fun r =>
  match m (ctl r) with
  | (controller.Returned a, c, t) => (Done a, set_ctl c r, Controller_call <$> t)
  | (controller.Panicked, c, t) => (Panic, set_ctl c r, Controller_call <$> t)
  end.

(** [func (c *Controller) Start(...)], with the stop channel. *)
Definition Start `{GoFloat.Platform} (startViewNumber startProposalSequence : Z) : L unit :=
  fun r => lift (controller.Start startViewNumber startProposalSequence)
             (set_stopChan (Some false) r).

(** [func (c *Controller) stopped() bool]: the receive succeeds on the
    closed channel only. *)
Definition stopped : L bool := fun r =>
  (Done match stopChan r with Some true => true | _ => false end, r, []).

(** [func (c *Controller) Stop()].  On the nil channel the receive is not
    ready and [close] panics. *)
Definition Stop : L unit := fun r =>
  match stopChan r with
  | Some true => (Done tt, r, [])
  | Some false =>
      (call_out Batcher_Close;;
       lift controller.relinquishLeaderToken) (set_stopChan (Some true) r)
  | None => (Panic, r, [])
  end.

(** [func (c *Controller) getNextBatch() [][]byte].  [batches] lists what
    the successive calls of [Batcher.NextBatch] return, each with a flag
    that tells whether another goroutine called [Stop] while the call was
    blocked; when the list is used up the method waits in [NextBatch]. *)
Fixpoint getNextBatch (batches : list (list bytes * bool)) : L (list bytes) :=
  match batches with
  | [] => fun r => (Waiting, r, [])
  | (requests, stop) :: rest =>
      (if (stop : bool) then Stop else mret tt);;
      call_out (Batcher_NextBatch requests);;
      s ← stopped;
      if (s : bool) then mret []
      else
        match requests with
        | [] => getNextBatch rest
        | _ :: _ => mret requests
        end
  end.

(** [func (c *Controller) propose()]; [metadata] is what
    [currView.GetMetadata()] returns. *)
Definition propose (batches : list (list bytes * bool)) (metadata : bytes) : L unit :=
  nextBatch ← getNextBatch batches;
  match nextBatch with
  | [] => mret tt
  | _ :: _ =>
      call_out (View_GetMetadata metadata);;
      call_out (Assembler_AssembleProposal metadata nextBatch);;
      let '(proposal, remainder) := AssembleProposal metadata nextBatch in
      match remainder with
      | [] => mret tt
      | _ :: _ => call_out (Batcher_BatchRemainder remainder)
      end;;
      call_out (Logger_Debugf_proposal "Leader proposing proposal: %v" proposal);;
      v ← lift (controller.gets controller.currView);
      call_out (View_Propose v proposal)
  end.

Definition set_verificationSequence (s : Z) (c : controller.Controller)
  : controller.Controller :=
  {| controller.ID := controller.ID c; controller.N := controller.N c;
     controller.RequestPool_state := controller.RequestPool_state c;
     controller.quorum := controller.quorum c;
     controller.currView := controller.currView c;
     controller.currViewNumber := controller.currViewNumber c;
     controller.viewEnd := controller.viewEnd c;
     controller.leaderToken := controller.leaderToken c;
     controller.verificationSequence := s |}.

(** The loop of [maybePruneRevokedRequests] over the popped remainder: the
    requests that still verify, in order, and a warning for each other. *)
Fixpoint revalidate (requests : list bytes) : list bytes * list call :=
  match requests with
  | [] => ([], [])
  | req :: rest =>
      let '(reqInf, err) := VerifyRequest req in
      let '(kept, warnings) := revalidate rest in
      match err with
      | Some e =>
          (kept,
           Controller_call
             (controller.Logger_Warnf "Revoking request %v due to %v"
                [controller.ArgInfo reqInf; controller.ArgError e]) :: warnings)
      | None => (req :: kept, warnings)
      end
  end.

(** [func (c *Controller) maybePruneRevokedRequests()]; [newVerSqn] is
    what [Verifier.VerificationSequence()] returns and [popped] what
    [Batcher.PopRemainder()] returns. *)
Definition maybePruneRevokedRequests (newVerSqn : Z) (popped : list bytes) : L unit :=
  oldVerSqn ← lift (controller.gets controller.verificationSequence);
  call_out (Verifier_VerificationSequence newVerSqn);;
  if newVerSqn =? oldVerSqn then mret tt
  else
    lift (controller.modify (set_verificationSequence newVerSqn));;
    call_out (Logger_Infof "Verification sequence changed: %d --> %d"
                [controller.ArgUint64 oldVerSqn; controller.ArgUint64 newVerSqn]);;
    lift (controller.modify (fun c =>
      controller.set_RequestPool_state
        (Prune (controller.RequestPool_state c) (fun req => snd (VerifyRequest req)))
        c));;
    call_out RequestPool_Prune;;
    call_out (Batcher_PopRemainder popped);;
    (fun r => (Done tt, r, snd (revalidate popped)));;
    call_out (Batcher_BatchRemainder (fst (revalidate popped))).

(** [func (c *Controller) removeDeliveredFromPool(d decision)], over the
    requests of the decision. *)
Fixpoint removeDeliveredFromPool (requests : list controller.RequestInfo) : L unit :=
  match requests with
  | [] => mret tt
  | reqInfo :: rest =>
      err ← (fun r =>
               let '(err, p) := RemoveRequest
                                  (controller.RequestPool_state (ctl r)) reqInfo in
               (Done err,
                set_ctl (controller.set_RequestPool_state p (ctl r)) r,
                [RequestPool_RemoveRequest reqInfo err]));
      match err with
      | Some e =>
          call_out (Controller_call
            (controller.Logger_Warnf
               "Error during remove of request %s from the pool : %s"
               [controller.ArgInfo reqInfo; controller.ArgError e]))
      | None => mret tt
      end;;
      removeDeliveredFromPool rest
  end.

(** What the loop meets in its [select], and what other goroutines do in
    between: a decision of the view (with the verification sequence and
    the batcher remainder of that moment), a view change, a call of
    [Stop], the closed stop channel, the leader token (with the batches
    and the metadata that [propose] will be given). *)
Inductive loopEvent : Type :=
| decisionChan_ready (d : decision) (newVerSqn : Z) (popped : list bytes)
| viewChange_ready (newView : viewInfo)
| Stop_called
| stopChan_ready
| leaderToken_ready (batches : list (list bytes * bool)) (metadata : bytes).

(** One turn of the loop of [run]; the result tells whether the loop
    returns.  A case of the [select] whose channel is not ready does not
    fire. *)
Definition run_step (ev : loopEvent) : L bool :=
  match ev with
  | decisionChan_ready d newVerSqn popped =>
      call_out (Application_Deliver (decision_proposal d) (decision_signatures d));;
      id ← lift (controller.gets controller.ID);
      call_out (Controller_call
        (controller.Logger_Debugf "Node %d delivered proposal"
           [controller.ArgUint64 id]));;
      removeDeliveredFromPool (decision_requests d);;
      call_out deliverChan_send;;
      maybePruneRevokedRequests newVerSqn popped;;
      '(iAm, _) ← lift controller.iAmTheLeader;
      (if (iAm : bool) then lift controller.acquireLeaderToken else mret tt);;
      mret false
  | viewChange_ready newView =>
      lift (controller.changeView (viewInfo_viewNumber newView)
              (viewInfo_proposalSeq newView));;
      mret false
  | Stop_called => Stop;; mret false
  | stopChan_ready => stopped
  | leaderToken_ready batches metadata =>
      token ← lift (controller.gets controller.leaderToken);
      match token with
      | Some true =>
          lift (controller.modify (controller.set_leaderToken (Some false)));;
          propose batches metadata;;
          mret false
      | _ => mret false
      end
  end.

(** The function that [run] defers: it runs when the loop returns and
    when it panics. *)
Definition exiting : L unit :=
  call_out (Logger_Infof "Exiting" []);;
  v ← lift (controller.gets controller.currView);
  call_out (Controller_call (controller.View_Abort v));;
  f ← lift (controller.gets controller.viewEnd);
  match f with
  | Some _ => call_out (Controller_call (controller.Future_Wait f))
  | None => fun r => (Panic, r, [])
  end.

(** [func (c *Controller) run()] under a schedule of events; when the
    schedule is used up the loop waits in its [select]. *)
Fixpoint run (schedule : list loopEvent) : L unit := fun r =>
  match schedule with
  | [] => (Waiting, r, [])
  | ev :: rest =>
      match run_step ev r with
      | (Done true, r1, t1) =>
          let '(o, r2, t2) := exiting r1 in (o, r2, t1 ++ t2)
      | (Done false, r1, t1) =>
          let '(o, r2, t2) := run rest r1 in (o, r2, t1 ++ t2)
      | (Panic, r1, t1) =>
          let '(_, r2, t2) := exiting r1 in (Panic, r2, t1 ++ t2)
      | (Waiting, r1, t1) => (Waiting, r1, t1)
      end
  end.

End Loop.

End run_loop.

(** ** Properties that the loop keeps, and sample collaborators for it *)

Module run_facts.

Section Preserves.

Context `{controller.RequestPool} `{!run_loop.Collaborators}.

(** [m] keeps [P]: from a replica with [P] it ends, however it ends, in a
    replica with [P]. *)
Definition preserves {A : Type} (P : run_loop.Replica -> Prop) (m : run_loop.L A) : Prop :=
  forall r, P r -> P (run_loop.replica_of (m r)).

(** Every call that [m] makes is one of [Q]. *)
Definition calls_in {A : Type} (Q : run_loop.call -> Prop) (m : run_loop.L A) : Prop :=
  forall r, Forall Q (run_loop.calls_of (m r)).

(** The calls of [getNextBatch]. *)
Definition batcher_call (e : run_loop.call) : Prop :=
  match e with
  | run_loop.Batcher_NextBatch _ | run_loop.Batcher_Close => True
  | _ => False
  end.

(** The request that a call asks the pool to remove. *)
Definition removed_request (e : run_loop.call) : option controller.RequestInfo :=
  match e with
  | run_loop.RequestPool_RemoveRequest info _ => Some info
  | _ => None
  end.

Definition is_View_Propose (e : run_loop.call) : bool :=
  match e with
  | run_loop.View_Propose _ _ => true
  | _ => false
  end.

(** Same node, same cluster size, and a view number not below that of
    [c0]. *)
Definition not_behind (c0 : controller.Controller) (r : run_loop.Replica) : Prop :=
  controller.N (run_loop.ctl r) = controller.N c0 /\
  controller.ID (run_loop.ctl r) = controller.ID c0 /\
  controller.currViewNumber c0 <= controller.currViewNumber (run_loop.ctl r).

(** The stop channel was made. *)
Definition started (r : run_loop.Replica) : Prop := run_loop.stopChan r <> None.

(** The requests that still verify. *)
Definition verifies (req : bytes) : bool :=
  match snd (run_loop.VerifyRequest req) with
  | None => true
  | Some _ => false
  end.

(** The warning that is written for a request that no longer verifies;
    none for a request that does. *)
Definition revocation_warning (req : bytes) : option run_loop.call :=
  match run_loop.VerifyRequest req with
  | (reqInf, Some e) =>
      Some (run_loop.Controller_call
              (controller.Logger_Warnf "Revoking request %v due to %v"
                 [controller.ArgInfo reqInf; controller.ArgError e]))
  | (_, None) => None
  end.

(** What the pool answers to the removals of [requests], one after the
    other, and the pool they leave. *)
Fixpoint removals (p : controller.pool) (requests : list controller.RequestInfo)
  : list (controller.RequestInfo * option controller.error) * controller.pool :=
  match requests with
  | [] => ([], p)
  | reqInfo :: rest =>
      let '(err, p1) := run_loop.RemoveRequest p reqInfo in
      let '(answers, p2) := removals p1 rest in
      ((reqInfo, err) :: answers, p2)
  end.

(** The calls for one removal: the removal itself and, when the pool
    answers with an error, the warning that names the request and the
    error. *)
Definition removal_calls (answer : controller.RequestInfo * option controller.error)
  : list run_loop.call :=
  run_loop.RequestPool_RemoveRequest (fst answer) (snd answer)
  :: match snd answer with
     | Some e =>
         [run_loop.Controller_call
            (controller.Logger_Warnf
               "Error during remove of request %s from the pool : %s"
               [controller.ArgInfo (fst answer); controller.ArgError e])]
     | None => []
     end.

End Preserves.

End run_facts.

Definition info_eqb (a b : controller.RequestInfo) : bool :=
  String.eqb (controller.ClientID a) (controller.ClientID b) &&
  String.eqb (controller.RequestInfo_ID a) (controller.RequestInfo_ID b).

(** Modelled from the spec: a request pool as in section 4.4, with texts
    for errors. *)
Definition text_pool (size : nat) : controller.RequestPool :=
  {| controller.pool := list bytes;
     controller.error := string;
     controller.Submit := fun p request =>
       if bool_decide (request ∈ p) then (Some ("duplicate request"%string : string), p)
       else if (length p <? size)%nat then (None, p ++ [request])
       else (Some ("pool full"%string : string), p) |}.

(** A verifier that revokes the requests that start with a zero byte, and
    an assembler that puts two requests into a proposal. *)
Definition sample_collaborators : @run_loop.Collaborators (text_pool 200) :=
  @run_loop.Build_Collaborators (text_pool 200)
    (fun (p : list bytes) info =>
       let keep := List.filter
                     (fun req => negb (info_eqb
                        (@controller.RequestID plain_inspector req) info)) p in
       if (length keep <? length p)%nat then (None, keep)
       else (Some ("request not found"%string : string), p))
    (fun (p : list bytes) (predicate : bytes -> option string) =>
       List.filter (fun req => match predicate req with
                               | None => true
                               | Some _ => false
                               end) p)
    (fun req =>
       (@controller.RequestID plain_inspector req,
        match req with
        | Byte.x00 :: _ => Some ("revoked"%string : string)
        | _ => None
        end))
    (fun metadata requests =>
       ({| Payload := List.concat (take 2 requests); Header := [];
           Metadata := metadata; VerificationSequence := 0 |},
        drop 2 requests)).

(** Node [id] of [n], with the requests [requests] in its pool, before
    and after [Start] in view [view]. *)
Definition unstarted_replica (id n : Z) (requests : list bytes)
  : @run_loop.Replica (text_pool 200) :=
  {| run_loop.ctl :=
       {| controller.ID := id;
          controller.N := n;
          controller.RequestPool_state := requests : @controller.pool (text_pool 200);
          controller.quorum := 0;
          controller.currView := zero_View;
          controller.currViewNumber := 0;
          controller.viewEnd := None;
          controller.leaderToken := None;
          controller.verificationSequence := 0 |};
     run_loop.stopChan := None |}.

Definition replica (id n view : Z) (requests : list bytes)
  : @run_loop.Replica (text_pool 200) :=
  run_loop.replica_of
    (@run_loop.Start _ GoFloat.amd64 view 1 (unstarted_replica id n requests)).

Definition revoked_request : bytes := [Byte.x00; Byte.x31].

Definition sample_signatures : gmap Z bytes :=
  <[1 := [Byte.x0a]]> (<[3 := [Byte.x0b]]> ∅).

Definition sample_proposal : Proposal :=
  {| Payload := sample_request; Header := []; Metadata := [];
     VerificationSequence := 0 |}.

(** A leader proposes, a decision is delivered, the view changes, and the
    controller is stopped. *)
Definition sample_schedule : list run_loop.loopEvent :=
  [run_loop.leaderToken_ready [([], false); ([sample_request], false)] [];
   run_loop.decisionChan_ready
     {| run_loop.decision_proposal :=
          {| Payload := sample_request; Header := []; Metadata := [];
             VerificationSequence := 0 |};
        run_loop.decision_signatures := [];
        run_loop.decision_requests := [sample_info] |}
     1 [revoked_request; sample_request];
   run_loop.viewChange_ready
     {| run_loop.viewInfo_viewNumber := 3; run_loop.viewInfo_proposalSeq := 2 |};
   run_loop.Stop_called;
   run_loop.stopChan_ready].

(* ===================================================================== *)
(** * Part II: properties *)
(* ===================================================================== *)

(** ** Machine arithmetic *)

Lemma wrap_int_small z : - 2 ^ 63 <= z < 2 ^ 63 -> GoInt.wrap_int z = z.
Proof.
  intros Hz. unfold GoInt.wrap_int.
  rewrite Z.mod_small by lia. lia.
Qed.

Lemma round53_exact m e :
  Z.abs m < 2 ^ 53 -> GoFloat.round53 m e = GoFloat.mkFloat m e.
Proof.
  intros Hm. unfold GoFloat.round53.
  destruct (Z.ltb_spec (Z.abs m) (2 ^ 53)); [reflexivity | lia].
Qed.

(** Past 53 bits [round53] keeps the 53 leading bits: the result is within
    half a unit in the last place of the exact value, and on a tie its
    mantissa is even. *)
Lemma round53_nearest (m e : Z) :
  2 ^ 53 <= Z.abs m ->
  let k := Z.log2 (Z.abs m) - 52 in
  let f := GoFloat.round53 m e in
  GoFloat.expo f = e + k /\
  2 ^ 52 <= Z.abs (GoFloat.mant f) <= 2 ^ 53 /\
  2 * Z.abs (GoFloat.mant f * 2 ^ k - m) <= 2 ^ k /\
  (2 * Z.abs (GoFloat.mant f * 2 ^ k - m) = 2 ^ k -> Z.even (GoFloat.mant f) = true).
Proof.
  intros Ha k f. subst f. unfold GoFloat.round53.
  destruct (Z.ltb_spec (Z.abs m) (2 ^ 53)) as [Hlt | _]; [lia |].
  cbn [GoFloat.mant GoFloat.expo]. fold k.
  assert (H53 : 2 ^ 53 = 2 * 2 ^ 52) by reflexivity.
  assert (H52 : 0 < 2 ^ 52) by reflexivity.
  set (a := Z.abs m) in *.
  assert (Hpos : 0 < a) by lia.
  pose proof (Z.log2_spec a Hpos) as Hlog.
  assert (Hk : 1 <= k).
  { subst k. pose proof (Z.log2_le_mono (2 ^ 53) a Ha) as Hm.
    rewrite Z.log2_pow2 in Hm by lia. lia. }
  assert (Hlo : 2 ^ Z.log2 a = 2 ^ 52 * 2 ^ k).
  { rewrite <- Z.pow_add_r by lia. f_equal. lia. }
  assert (Hhi : 2 ^ Z.succ (Z.log2 a) = 2 ^ 53 * 2 ^ k).
  { rewrite <- Z.pow_add_r by lia. f_equal. lia. }
  assert (HP : 2 ^ k = 2 * 2 ^ (k - 1)).
  { rewrite <- Z.pow_succ_r by lia. f_equal. lia. }
  assert (Hh : 0 < 2 ^ (k - 1)) by (apply Z.pow_pos_nonneg; lia).
  set (P := 2 ^ k) in *. set (h := 2 ^ (k - 1)) in *.
  pose proof (Z.div_mod a P ltac:(lia)) as Hdm.
  pose proof (Z.mod_pos_bound a P ltac:(lia)) as Hr.
  set (q := a / P) in *. set (r := a mod P) in *.
  assert (Hq : 2 ^ 52 <= q < 2 ^ 53) by nia.
  split; [reflexivity |].
  assert (Hsgn : m = Z.sgn m * a) by (subst a; destruct m; cbn; lia).
  assert (Hs : Z.sgn m = 1 \/ Z.sgn m = -1) by (subst a; lia).
  assert (Hodd : Z.odd (q + 1) = negb (Z.odd q)).
  { rewrite Z.add_1_r, Z.odd_succ, <- Z.negb_odd. reflexivity. }
  assert (Heven : forall s x, (s = 1 \/ s = -1) -> Z.even (s * x) = Z.even x).
  { intros s x [-> | ->]; [f_equal; lia |].
    replace (-1 * x) with (- x) by lia. apply Z.even_opp. }
  destruct (Z.ltb_spec h r) as [Hhr | Hhr]; cbn [orb].
  - split; [nia |]. split; [nia |]. intros Heq. exfalso. nia.
  - destruct (Z.eqb_spec r h) as [Hrh | Hrh]; cbn [andb].
    + destruct (Z.odd q) eqn:Hoq.
      * split; [nia |]. split; [nia |]. intros _.
        rewrite Heven by assumption. rewrite <- Z.negb_odd, Hodd. reflexivity.
      * split; [nia |]. split; [nia |]. intros _.
        rewrite Heven by assumption. rewrite <- Z.negb_odd, Hoq. reflexivity.
    + split; [nia |]. split; [nia |]. intros Heq. exfalso. nia.
Qed.

Lemma add_exact m1 m2 :
  Z.abs (m1 + m2) < 2 ^ 53 ->
  GoFloat.add (GoFloat.mkFloat m1 0) (GoFloat.mkFloat m2 0) = GoFloat.mkFloat (m1 + m2) 0.
Proof.
  intros Hm. unfold GoFloat.add. cbn [GoFloat.mant GoFloat.expo].
  rewrite Z.min_id, Z.sub_diag. change (2 ^ 0) with 1.
  rewrite !Z.mul_1_r. now apply round53_exact.
Qed.

Lemma half_ceiling x : - ((- x) / 2) = (x + 1) / 2.
Proof.
  pose proof (Z.div_mod (- x) 2 ltac:(lia)).
  pose proof (Z.mod_pos_bound (- x) 2 ltac:(lia)).
  pose proof (Z.div_mod (x + 1) 2 ltac:(lia)).
  pose proof (Z.mod_pos_bound (x + 1) 2 ltac:(lia)).
  lia.
Qed.

Lemma Ceil_half m :
  GoFloat.Ceil (GoFloat.mkFloat m (0 - 1)) = GoFloat.mkFloat ((m + 1) / 2) 0.
Proof.
  unfold GoFloat.Ceil. cbn [GoFloat.mant GoFloat.expo].
  change (0 <=? 0 - 1) with false. cbv iota.
  change (2 ^ (- (0 - 1))) with 2. f_equal. apply half_ceiling.
Qed.

Lemma to_int_exact `{GoFloat.Platform} v :
  - 2 ^ 63 <= v < 2 ^ 63 -> GoFloat.to_int (GoFloat.mkFloat v 0) = v.
Proof.
  intros Hv. unfold GoFloat.to_int, GoFloat.trunc. cbn [GoFloat.mant GoFloat.expo].
  change (0 <=? 0) with true. cbv iota.
  change (2 ^ 0) with 1. rewrite Z.mul_1_r.
  destruct (Z.leb_spec (- 2 ^ 63) v); [| lia].
  destruct (Z.ltb_spec v (2 ^ 63)); [reflexivity | lia].
Qed.

(** ** The quorum *)

(** Up to [3 * 2^51] nodes nothing wraps and nothing is rounded: the sum
    [N + F + 1] stays within the 53 bits of a [float64]. *)
Lemma computeQuorum_exact `{GoFloat.Platform} N :
  0 <= N <= 3 * 2 ^ 51 ->
  computeQuorum N = ((N + Z.quot (N - 1) 3 + 1 + 1) / 2, Z.quot (N - 1) 3).
Proof.
  intros HN.
  assert (H51 : 2 ^ 51 = 2251799813685248) by reflexivity.
  assert (H53 : 2 ^ 53 = 9007199254740992) by reflexivity.
  assert (H63 : 2 ^ 63 = 9223372036854775808) by reflexivity.
  destruct (Z.eq_dec N (3 * 2 ^ 51)) as [-> | Hlast]; [vm_compute; reflexivity |].
  unfold computeQuorum.
  unfold GoInt.int_of_uint64, GoInt.int_sub, GoInt.int_div.
  rewrite (wrap_int_small N) by lia.
  rewrite (wrap_int_small (N - 1)) by lia.
  set (F := Z.quot (N - 1) 3).
  assert (HF : 0 <= F /\ 3 * F <= N).
  { subst F. destruct (Z.eq_dec N 0) as [-> | Hn]; [vm_compute; split; discriminate |].
    rewrite Z.quot_div_nonneg by lia.
    pose proof (Z.mul_div_le (N - 1) 3 ltac:(lia)).
    assert (0 <= (N - 1) / 3) by (apply Z.div_pos; lia). lia. }
  rewrite (wrap_int_small F) by lia.
  unfold GoFloat.of_int.
  rewrite (round53_exact N 0), (round53_exact F 0), (round53_exact 1 0) by lia.
  rewrite (add_exact N F), (add_exact (N + F) 1) by lia.
  unfold GoFloat.div2. cbn [GoFloat.mant GoFloat.expo].
  rewrite Ceil_half.
  rewrite to_int_exact; [reflexivity |].
  split; [assert (0 <= (N + F + 1 + 1) / 2) by (apply Z.div_pos; lia); lia |].
  apply Z.div_lt_upper_bound; lia.
Qed.

Lemma spec_F_quot N : 1 <= N -> Z.quot (N - 1) 3 = spec_F N.
Proof. intros HN. unfold spec_F. apply Z.quot_div_nonneg; lia. Qed.

Lemma spec_Q_ceil N : spec_Q N = (N + spec_F N + 1 + 1) / 2.
Proof. unfold spec_Q. apply half_ceiling. Qed.

(** [spec_Q N] is the least integer [q] with [2 q >= N + f + 1]. *)
Lemma spec_Q_least N : N + spec_F N + 1 <= 2 * spec_Q N < N + spec_F N + 1 + 2.
Proof.
  rewrite spec_Q_ceil. set (x := N + spec_F N + 1).
  pose proof (Z.div_mod (x + 1) 2 ltac:(lia)).
  pose proof (Z.mod_pos_bound (x + 1) 2 ltac:(lia)).
  lia.
Qed.

(** [spec_F N] is the largest [f] with [N >= 3 f + 1]. *)
Lemma spec_F_argmax N : 3 * spec_F N + 1 <= N < 3 * (spec_F N + 1) + 1.
Proof.
  unfold spec_F.
  pose proof (Z.div_mod (N - 1) 3 ltac:(lia)).
  pose proof (Z.mod_pos_bound (N - 1) 3 ltac:(lia)).
  lia.
Qed.

(** Two sets of nodes drawn from [nodes] overlap in at least
    [|q1| + |q2| - |nodes|] nodes. *)
Lemma quorum_overlap (nodes q1 q2 : gset Z) :
  q1 ⊆ nodes -> q2 ⊆ nodes ->
  (size q1 + size q2 <= size nodes + size (q1 ∩ q2))%nat.
Proof.
  intros H1 H2.
  assert (Hu : (size (q1 ∪ q2) <= size nodes)%nat).
  { apply subseteq_size. intros x [Hx | Hx]%elem_of_union; auto. }
  rewrite size_union_alt, size_difference_alt in Hu.
  assert (Hi : (size (q2 ∩ q1) <= size q2)%nat).
  { apply subseteq_size. intros x [Hx _]%elem_of_intersection. exact Hx. }
  assert (Hc : q1 ∩ q2 = q2 ∩ q1).
  { apply set_eq. intros x. rewrite !elem_of_intersection. tauto. }
  rewrite Hc. lia.
Qed.

(** Two quorums that share as few nodes as their size allows: among [N]
    nodes there are two sets of [Q] nodes with [2 Q - N] nodes in
    common. *)
Lemma quorums_far_apart (N Q : Z) :
  0 <= Q <= N -> N <= 2 * Q ->
  exists nodes q1 q2 : gset Z,
    Z.of_nat (size nodes) = N /\ q1 ⊆ nodes /\ q2 ⊆ nodes /\
    Z.of_nat (size q1) = Q /\ Z.of_nat (size q2) = Q /\
    Z.of_nat (size (q1 ∩ q2)) = 2 * Q - N.
Proof.
  intros HQ HN.
  assert (Hsize : forall a n, 0 <= n ->
            Z.of_nat (size (list_to_set (seqZ a n) : gset Z)) = n).
  { intros a n Hn. rewrite size_list_to_set by apply NoDup_seqZ.
    rewrite length_seqZ. lia. }
  exists (list_to_set (seqZ 0 N)), (list_to_set (seqZ 0 Q)),
         (list_to_set (seqZ (N - Q) Q)).
  split; [apply Hsize; lia |].
  split; [intros x; rewrite !elem_of_list_to_set, !elem_of_seqZ; lia |].
  split; [intros x; rewrite !elem_of_list_to_set, !elem_of_seqZ; lia |].
  split; [apply Hsize; lia |]. split; [apply Hsize; lia |].
  assert (Hcap : (list_to_set (seqZ 0 Q) : gset Z) ∩ list_to_set (seqZ (N - Q) Q)
                 = list_to_set (seqZ (N - Q) (2 * Q - N))).
  { apply set_eq. intros x.
    rewrite elem_of_intersection, !elem_of_list_to_set, !elem_of_seqZ. lia. }
  rewrite Hcap. apply Hsize. lia.
Qed.

(** Up to [3 * 2^51] nodes the quorum is the one of the specification:
    [computeQuorum] returns [F = floor((N-1)/3)] and
    [Q = ceil((N + F + 1)/2)]; then [2 Q - N >= F + 1], and any two sets of
    [Q] nodes drawn from the [N] nodes share at least [F + 1] nodes. *)
Lemma computeQuorum_spec `{GoFloat.Platform} (N : Z) :
  1 <= N <= 3 * 2 ^ 51 ->
  let Q := fst (computeQuorum N) in
  let F := snd (computeQuorum N) in
  F = spec_F N /\ Q = spec_Q N /\ 2 * Q - N >= F + 1 /\
  forall nodes q1 q2 : gset Z,
    Z.of_nat (size nodes) = N -> q1 ⊆ nodes -> q2 ⊆ nodes ->
    Z.of_nat (size q1) = Q -> Z.of_nat (size q2) = Q ->
    F + 1 <= Z.of_nat (size (q1 ∩ q2)).
Proof.
  intros HN Q F. subst Q F.
  rewrite computeQuorum_exact by lia. cbn [fst snd].
  rewrite spec_F_quot by lia. rewrite <- spec_Q_ceil.
  pose proof (spec_Q_least N) as HQ.
  repeat split; [lia |].
  intros nodes q1 q2 Hn H1 H2 Hq1 Hq2.
  pose proof (quorum_overlap nodes q1 q2 H1 H2). lia.
Qed.

Lemma computeQuorum_spec_witness :
  1 <= 4 <= 3 * 2 ^ 51 /\
  @computeQuorum GoFloat.amd64 4 = (3, 1) /\
  snd (@computeQuorum GoFloat.amd64 4) = spec_F 4 /\
  fst (@computeQuorum GoFloat.amd64 4) = spec_Q 4.
Proof.
  assert (H4 : 1 <= 4 <= 3 * 2 ^ 51) by (split; discriminate).
  pose proof (@computeQuorum_spec GoFloat.amd64 4 H4) as (HF & HQ & _).
  split; [exact H4 |]. split; [reflexivity |]. split; [exact HF | exact HQ].
Defined.

(** C2.  The quorum is computed in [float64], and one node past
    [3 * 2^51] the sum leaves its 53 bits: at [N = 3 * 2^51 + 1] the
    fault bound is [F = 2^51], [float64(N) + float64(F)] is [2^53 + 1] and
    is rounded to [2^53], and adding [1] is rounded to [2^53] again.  The
    quorum comes out as [2^52], one short of [ceil((N + F + 1)/2)]; then
    [2 Q - N = F - 1], and there are two sets of [Q] of the [N] nodes with
    fewer than [F + 1] nodes in common, against the comment of
    [computeQuorum]. *)
Theorem computeQuorum_rounding_defect :
  let N := 3 * 2 ^ 51 + 1 in
  let Q := fst (@computeQuorum GoFloat.amd64 N) in
  let F := snd (@computeQuorum GoFloat.amd64 N) in
  (1 <= N /\ GoInt.is_uint64 N) /\
  @computeQuorum GoFloat.amd64 N = (2 ^ 52, 2 ^ 51) /\
  @computeQuorum GoFloat.arm64 N = (2 ^ 52, 2 ^ 51) /\
  F = spec_F N /\
  spec_Q N = 2 ^ 52 + 1 /\
  Q <> spec_Q N /\
  2 * Q - N = F - 1 /\
  ~ (2 * Q - N >= F + 1) /\
  exists nodes q1 q2 : gset Z,
    Z.of_nat (size nodes) = N /\ q1 ⊆ nodes /\ q2 ⊆ nodes /\
    Z.of_nat (size q1) = Q /\ Z.of_nat (size q2) = Q /\
    Z.of_nat (size (q1 ∩ q2)) < F + 1.
Proof.
  cbv zeta.
  assert (Hq : @computeQuorum GoFloat.amd64 (3 * 2 ^ 51 + 1)
               = (4503599627370496, 2251799813685248)) by (vm_compute; reflexivity).
  rewrite Hq. cbn [fst snd].
  split; [split; [| split]; vm_compute; congruence |].
  split; [vm_compute; reflexivity |].
  split; [vm_compute; reflexivity |].
  split; [vm_compute; reflexivity |].
  split; [vm_compute; reflexivity |].
  split; [vm_compute; congruence |].
  split; [vm_compute; reflexivity |].
  split; [vm_compute; congruence |].
  destruct (quorums_far_apart (3 * 2 ^ 51 + 1) 4503599627370496)
    as (nodes & q1 & q2 & Hn & H1 & H2 & Hq1 & Hq2 & Hcap).
  { split; vm_compute; congruence. }
  { vm_compute; congruence. }
  exists nodes, q1, q2.
  split; [exact Hn |]. split; [exact H1 |]. split; [exact H2 |].
  split; [exact Hq1 |]. split; [exact Hq2 |].
  rewrite Hcap. vm_compute. reflexivity.
Qed.

(** A larger input with the same outcome: at [N = 2^53 + 2] the two
    additions round down as well. *)
Example computeQuorum_at_2_53_plus_2 :
  let N := 2 ^ 53 + 2 in
  (1 <= N /\ GoInt.is_uint64 N) /\
  @computeQuorum GoFloat.amd64 N = (6004799503160662, 3002399751580331) /\
  @computeQuorum GoFloat.arm64 N = (6004799503160662, 3002399751580331) /\
  spec_F N = 3002399751580331 /\
  spec_Q N = 6004799503160663 /\
  ~ (2 * fst (@computeQuorum GoFloat.amd64 N) - N
       >= snd (@computeQuorum GoFloat.amd64 N) + 1).
Proof.
  cbv zeta. repeat split; vm_compute; congruence.
Qed.

(** Past [2^63] nodes the conversion [int(N)] is negative, and so is [F]. *)
Example computeQuorum_negative_F :
  snd (@computeQuorum GoFloat.amd64 (2 ^ 63 + 1)) = - 3074457345618258602.
Proof. vm_compute. reflexivity. Qed.

(** C10.  For every cluster size [N], in range or not, the quorum that the
    method [Controller.computeQuorum] returns is the [Q] component of the
    function [computeQuorum] of util.go; the method changes no state and
    writes one log line. *)
Theorem Controller_computeQuorum_agrees
  `{GoFloat.Platform} `{controller.RequestPool} (c : controller.Controller) :
  controller.result_of (controller.computeQuorum c)
    = controller.Returned (fst (computeQuorum (controller.N c))) /\
  controller.state_of (controller.computeQuorum c) = c /\
  controller.trace_of (controller.computeQuorum c) =
    [controller.Logger_Debugf
       "The number of nodes (N) is %d, F is %d, and the quorum size is %d"
       [controller.ArgUint64 (controller.N c);
        controller.ArgInt (snd (computeQuorum (controller.N c)));
        controller.ArgInt (fst (computeQuorum (controller.N c)))]].
Proof.
  cbv [controller.computeQuorum computeQuorum mbind mret
       controller.M_bind controller.M_ret controller.gets controller.emit
       controller.result_of controller.state_of controller.trace_of
       fst snd app].
  split; [reflexivity | split; reflexivity].
Qed.

(** ** View number and proposal sequence of a message *)

Lemma getters_exclusive (m : Message) :
  (is_Some (GetPrePrepare m) -> GetPrepare m = None /\ GetCommit m = None) /\
  (is_Some (GetPrepare m) -> GetPrePrepare m = None /\ GetCommit m = None) /\
  (is_Some (GetCommit m) -> GetPrePrepare m = None /\ GetPrepare m = None).
Proof.
  destruct m as [[[] |] |]; cbn;
    (split; [| split]); intros [x Hx]; try discriminate; split; reflexivity.
Qed.

(** C9.  Both functions are total.  On a message that holds none of
    PrePrepare, Prepare and Commit they return [2^64 - 1]; on a message
    that holds one of the three they return the [View] and the [Seq] of
    that sub-message. *)
Theorem viewNumber_proposalSequence_spec (m : Message) :
  (GetPrePrepare m = None -> GetPrepare m = None -> GetCommit m = None ->
   viewNumber m = 2 ^ 64 - 1 /\ proposalSequence m = 2 ^ 64 - 1) /\
  (forall pp, GetPrePrepare m = Some pp ->
   viewNumber m = PrePrepare_View pp /\ proposalSequence m = PrePrepare_Seq pp) /\
  (forall prp, GetPrepare m = Some prp ->
   viewNumber m = Prepare_View prp /\ proposalSequence m = Prepare_Seq prp) /\
  (forall cmt, GetCommit m = Some cmt ->
   viewNumber m = Commit_View cmt /\ proposalSequence m = Commit_Seq cmt).
Proof.
  unfold viewNumber, proposalSequence.
  split; [| split; [| split]].
  - intros -> -> ->. split; reflexivity.
  - intros pp ->. split; reflexivity.
  - intros prp Hprp.
    destruct (proj1 (proj2 (getters_exclusive m))) as [-> _]; [by eexists |].
    rewrite Hprp. split; reflexivity.
  - intros cmt Hcmt.
    destruct (proj2 (proj2 (getters_exclusive m))) as [-> ->]; [by eexists |].
    rewrite Hcmt. split; reflexivity.
Qed.

Lemma viewNumber_proposalSequence_witness :
  (viewNumber heartbeat_message = 18446744073709551615 /\
   proposalSequence heartbeat_message = 18446744073709551615) /\
  (viewNumber prepare_message = 3 /\ proposalSequence prepare_message = 7).
Proof.
  split.
  - apply (proj1 (viewNumber_proposalSequence_spec heartbeat_message));
      reflexivity.
  - apply (proj1 (proj2 (proj2 (viewNumber_proposalSequence_spec prepare_message)))
             {| Prepare_View := 3; Prepare_Seq := 7;
                Prepare_Digest := "d"; Prepare_Signature := [] |}).
    reflexivity.
Defined.

(** ** The pool options *)

Lemma quotients_ordered (d : Z) :
  5 <= d ->
  100 * Z.quot d 100 <= d < 100 * (Z.quot d 100 + 1) /\
  5 * Z.quot d 5 <= d < 5 * (Z.quot d 5 + 1) /\
  Z.quot d 100 < Z.quot d 5 < d.
Proof.
  intros HD. rewrite !Z.quot_div_nonneg by lia.
  pose proof (Z.div_mod d 100 ltac:(lia)).
  pose proof (Z.mod_pos_bound d 100 ltac:(lia)).
  pose proof (Z.div_mod d 5 ltac:(lia)).
  pose proof (Z.mod_pos_bound d 5 ltac:(lia)).
  lia.
Qed.

(** C8.  The options that [Consensus.Start] builds hold a queue of
    [DefaultRequestPoolSize] requests and the timeouts
    [DefaultRequestTimeout / 100], [DefaultRequestTimeout / 5] and
    [DefaultRequestTimeout]; for a default of five nanoseconds or more,
    [RequestTimeout < LeaderFwdTimeout < AutoRemoveTimeout]. *)
Theorem Start_opts_ratio (DefaultRequestTimeout : Z) :
  let opts := consensus.Start_opts DefaultRequestTimeout in
  consensus.QueueSize opts = 200 /\
  consensus.RequestTimeout opts = Z.quot DefaultRequestTimeout 100 /\
  consensus.LeaderFwdTimeout opts = Z.quot DefaultRequestTimeout 5 /\
  consensus.AutoRemoveTimeout opts = DefaultRequestTimeout /\
  (5 <= DefaultRequestTimeout ->
   100 * consensus.RequestTimeout opts <= DefaultRequestTimeout
     < 100 * (consensus.RequestTimeout opts + 1) /\
   5 * consensus.LeaderFwdTimeout opts <= DefaultRequestTimeout
     < 5 * (consensus.LeaderFwdTimeout opts + 1) /\
   consensus.RequestTimeout opts < consensus.LeaderFwdTimeout opts
     < consensus.AutoRemoveTimeout opts).
Proof.
  cbn. repeat (split; [reflexivity |]).
  apply quotients_ordered.
Qed.

(** With a default of ten seconds the timeouts are a tenth of a second,
    two seconds and ten seconds. *)
Lemma Start_opts_ratio_witness :
  consensus.RequestTimeout (consensus.Start_opts 10000000000)
    < consensus.LeaderFwdTimeout (consensus.Start_opts 10000000000)
    < consensus.AutoRemoveTimeout (consensus.Start_opts 10000000000).
Proof.
  pose proof (Start_opts_ratio 10000000000) as (_ & _ & _ & _ & Hord).
  apply Hord. discriminate.
Defined.

(** The order of the three timeouts needs a default of at least five
    nanoseconds. *)
Lemma Start_opts_order_iff (DefaultRequestTimeout : Z) :
  let opts := consensus.Start_opts DefaultRequestTimeout in
  consensus.RequestTimeout opts < consensus.LeaderFwdTimeout opts
    < consensus.AutoRemoveTimeout opts
  <-> 5 <= DefaultRequestTimeout.
Proof.
  cbn. split.
  - intros [H1 H2].
    destruct (Z.le_gt_cases 5 DefaultRequestTimeout) as [| Hlt]; [assumption |].
    exfalso.
    destruct (Z.le_gt_cases 0 DefaultRequestTimeout) as [Hnn | Hneg].
    + rewrite (Z.quot_small DefaultRequestTimeout 5) in * by lia.
      rewrite (Z.quot_small DefaultRequestTimeout 100) in * by lia. lia.
    + pose proof (Z.quot_opp_l (- DefaultRequestTimeout) 5 ltac:(lia)) as Hq.
      rewrite Z.opp_involutive in Hq.
      assert (0 <= Z.quot (- DefaultRequestTimeout) 5 <= - DefaultRequestTimeout).
      { rewrite Z.quot_div_nonneg by lia. split; [apply Z.div_pos; lia |].
        apply Z.div_le_upper_bound; lia. }
      pose proof (Z.quot_opp_l (- DefaultRequestTimeout) 100 ltac:(lia)) as Hq'.
      rewrite Z.opp_involutive in Hq'.
      assert (Z.quot (- DefaultRequestTimeout) 100 <= Z.quot (- DefaultRequestTimeout) 5).
      { rewrite !Z.quot_div_nonneg by lia.
        pose proof (Z.div_mod (- DefaultRequestTimeout) 100 ltac:(lia)).
        pose proof (Z.mod_pos_bound (- DefaultRequestTimeout) 100 ltac:(lia)).
        pose proof (Z.div_mod (- DefaultRequestTimeout) 5 ltac:(lia)).
        pose proof (Z.mod_pos_bound (- DefaultRequestTimeout) 5 ltac:(lia)).
        lia. }
      lia.
  - intros HD. apply (quotients_ordered DefaultRequestTimeout HD).
Qed.

(** ** The controller *)

(** Unfold the methods of the controller down to the state, without
    touching the arithmetic. *)
Ltac unfold_controller :=
  cbv [controller.SubmitRequest controller.call_Submit
       controller.OnRequestTimeout controller.OnLeaderFwdRequestTimeout
       controller.ProcessMessages controller.changeView controller.startView
       controller.iAmTheLeader controller.leaderID
       controller.getCurrentViewNumber controller.setCurrentViewNumber
       controller.acquireLeaderToken controller.relinquishLeaderToken
       controller.gets controller.modify controller.emit controller.panic
       mbind mret controller.M_bind controller.M_ret
       controller.result_of controller.state_of controller.trace_of
       fst snd app].

Section ControllerFacts.

Context `{controller.RequestPool} `{controller.RequestInspector}.

Implicit Types c : controller.Controller.

Lemma leaderID_value c :
  controller.N c <> 0 ->
  controller.leaderID c
    = (controller.Returned (controller.currViewNumber c mod controller.N c), c, []).
Proof.
  intros HN. unfold_controller. unfold GoInt.uint64_rem.
  destruct (Z.eqb_spec (controller.N c) 0); [contradiction | reflexivity].
Qed.

Lemma leaderID_panics c :
  controller.N c = 0 -> controller.leaderID c = (controller.Panicked, c, []).
Proof.
  intros HN. unfold_controller. unfold GoInt.uint64_rem.
  rewrite HN. reflexivity.
Qed.

Lemma iAmTheLeader_inv c (iAm : bool) (leader : Z) :
  controller.result_of (controller.iAmTheLeader c) = controller.Returned (iAm, leader) ->
  controller.N c <> 0 /\
  leader = controller.currViewNumber c mod controller.N c /\
  iAm = (leader =? controller.ID c) /\
  controller.iAmTheLeader c = (controller.Returned (iAm, leader), c, []).
Proof.
  unfold_controller. unfold GoInt.uint64_rem.
  destruct (Z.eqb_spec (controller.N c) 0) as [HN | HN]; [discriminate |].
  intros [= <- <-]. repeat split. exact HN.
Qed.

(** C7.  [SubmitRequest] returns what [RequestPool.Submit] returns for
    the payload: the pool's error when there is one, nil otherwise.  The
    controller after the call differs from the one before in the pool
    alone, and besides the submission one log line is written. *)
Theorem SubmitRequest_returns_pool_error c (request : bytes) :
  let err := fst (controller.Submit (controller.RequestPool_state c) request) in
  let p := snd (controller.Submit (controller.RequestPool_state c) request) in
  controller.result_of (controller.SubmitRequest request c) = controller.Returned err /\
  controller.state_of (controller.SubmitRequest request c)
    = controller.set_RequestPool_state p c /\
  controller.trace_of (controller.SubmitRequest request c)
    = [controller.RequestPool_Submit request err;
       match err with
       | Some e =>
           controller.Logger_Warnf "Request %s was not submitted, error: %s"
             [controller.ArgInfo (controller.RequestID request); controller.ArgError e]
       | None =>
           controller.Logger_Debugf "Request %s was submitted"
             [controller.ArgInfo (controller.RequestID request)]
       end].
Proof.
  unfold_controller.
  destruct (controller.Submit (controller.RequestPool_state c) request) as [[e |] p];
    repeat split.
Qed.

(** View-phase messages reach the current view. *)
Lemma ProcessMessages_view_message c (sender : Z) (m : Message) :
  IsViewMessage m = true ->
  controller.ProcessMessages sender m c
    = (controller.Returned tt, c,
       [controller.View_HandleMessage (controller.currView c) sender m;
        controller.Logger_Debugf "Node %d handled message %v from %d with seq %d"
          [controller.ArgUint64 (controller.ID c); controller.ArgMessage m;
           controller.ArgUint64 sender;
           controller.ArgUint64 (proposalSequence m)]]).
Proof.
  intros Hm. unfold_controller. rewrite Hm. reflexivity.
Qed.

(** C5.  [ProcessMessages] hands a message to the current view when it
    holds a PrePrepare, a Prepare or a Commit.  A message of any other
    variant (view change, view data, new view, heartbeat, heartbeat
    response, state transfer request or response) reaches no component:
    the call writes its log line and returns, the controller unchanged. *)
Theorem ProcessMessages_drops_other_messages c (sender : Z) (content : Content) :
  match content with
  | Message_PrePrepare _ | Message_Prepare _ | Message_Commit _ =>
      controller.trace_of (controller.ProcessMessages sender (Some (Some content)) c)
      = [controller.View_HandleMessage (controller.currView c) sender (Some (Some content));
         controller.Logger_Debugf "Node %d handled message %v from %d with seq %d"
           [controller.ArgUint64 (controller.ID c);
            controller.ArgMessage (Some (Some content));
            controller.ArgUint64 sender;
            controller.ArgUint64 (proposalSequence (Some (Some content)))]]
  | _ =>
      controller.ProcessMessages sender (Some (Some content)) c
      = (controller.Returned tt, c,
         [controller.Logger_Debugf "Node %d handled message %v from %d with seq %d"
            [controller.ArgUint64 (controller.ID c);
             controller.ArgMessage (Some (Some content));
             controller.ArgUint64 sender;
             controller.ArgUint64 GoInt.MaxUint64]])
  end.
Proof.
  destruct content; reflexivity.
Qed.

(** C6 (as amended).  Let [leader] be the current leader, the node that
    [leaderID] returns (it computes [currViewNumber mod N]), and which
    [iAmTheLeader] compares with the replica's own [ID].  On a replica
    other than [leader],
    [OnRequestTimeout] sends the request to [leader] with
    [Comm.SendTransaction] and [OnLeaderFwdRequestTimeout] calls
    [FailureDetector.Complain].  On the replica that is [leader], each of
    the two writes its log line and does nothing else.  Neither changes
    the controller. *)
Theorem request_timeouts_forward_then_complain
  c (request : bytes) (info : controller.RequestInfo) (leader : Z) :
  controller.result_of (controller.leaderID c) = controller.Returned leader ->
  leader = controller.currViewNumber c mod controller.N c /\
  controller.result_of (controller.iAmTheLeader c)
    = controller.Returned (bool_decide (leader = controller.ID c), leader) /\
  controller.OnRequestTimeout request info c
    = (controller.Returned tt, c,
       if bool_decide (leader = controller.ID c) then
         [controller.Logger_Warnf
            "Request %s timeout expired, this node is the leader, nothing to do"
            [controller.ArgInfo info]]
       else
         [controller.Logger_Warnf
            "Request %s timeout expired, forwarding request to leader: %d"
            [controller.ArgInfo info; controller.ArgUint64 leader];
          controller.Comm_SendTransaction leader request]) /\
  controller.OnLeaderFwdRequestTimeout request info c
    = (controller.Returned tt, c,
       if bool_decide (leader = controller.ID c) then
         [controller.Logger_Warnf
            "Request %s leader-forwarding timeout expired, this node is the leader, nothing to do"
            [controller.ArgInfo info]]
       else
         [controller.Logger_Warnf
            "Request %s leader-forwarding timeout expired, complaining about leader: %d"
            [controller.ArgInfo info; controller.ArgUint64 leader];
          controller.FailureDetector_Complain]).
Proof.
  intros Hl.
  assert (HN : controller.N c <> 0).
  { intros HN. rewrite (leaderID_panics c HN) in Hl. discriminate. }
  rewrite (leaderID_value c HN) in Hl. injection Hl as <-.
  assert (Hdec : bool_decide (controller.currViewNumber c mod controller.N c
                              = controller.ID c)
                 = (controller.currViewNumber c mod controller.N c =? controller.ID c)).
  { destruct (Z.eqb_spec (controller.currViewNumber c mod controller.N c)
                (controller.ID c)) as [Heq | Hne].
    - apply bool_decide_eq_true_2. exact Heq.
    - apply bool_decide_eq_false_2. exact Hne. }
  rewrite Hdec. split; [reflexivity |].
  assert (HiAm : controller.iAmTheLeader c
                 = (controller.Returned
                      (controller.currViewNumber c mod controller.N c =? controller.ID c,
                       controller.currViewNumber c mod controller.N c), c, [])).
  { unfold controller.iAmTheLeader. cbv [mbind controller.M_bind].
    rewrite (leaderID_value c HN). reflexivity. }
  split; [rewrite HiAm; reflexivity |].
  unfold controller.OnRequestTimeout, controller.OnLeaderFwdRequestTimeout.
  cbv [mbind controller.M_bind]. rewrite HiAm.
  destruct (controller.currViewNumber c mod controller.N c =? controller.ID c);
    split; reflexivity.
Qed.

End ControllerFacts.

(** ** View changes *)

Section ViewChange.

Context `{controller.RequestPool}.

Implicit Types c : controller.Controller.

(** A stale view change: the leader token is given up, a log line is
    written, and nothing else happens. *)
Lemma changeView_stale c (newViewNumber newProposalSequence : Z) :
  controller.currViewNumber c > newViewNumber ->
  let r := controller.changeView newViewNumber newProposalSequence c in
  controller.result_of r = controller.Returned tt /\
  controller.currViewNumber (controller.state_of r) = controller.currViewNumber c /\
  controller.currView (controller.state_of r) = controller.currView c /\
  controller.viewEnd (controller.state_of r) = controller.viewEnd c /\
  controller.trace_of r
    = [controller.Logger_Debugf "Got view change to %d but already at %d"
         [controller.ArgUint64 newViewNumber;
          controller.ArgUint64 (controller.currViewNumber c)]].
Proof.
  intros Hgt.
  assert (Hlt : (controller.currViewNumber c >? newViewNumber) = true).
  { rewrite Z.gtb_ltb. apply Z.ltb_lt. lia. }
  unfold_controller.
  destruct (controller.leaderToken c); cbn; rewrite Hlt; repeat split.
Qed.

(** On a controller that was never started the future of the current view
    is nil: the call panics on [c.viewEnd.Wait()], before it touches the
    view number. *)
Lemma changeView_unstarted c (newViewNumber newProposalSequence : Z) :
  controller.currViewNumber c <= newViewNumber ->
  controller.viewEnd c = None ->
  let r := controller.changeView newViewNumber newProposalSequence c in
  controller.result_of r = controller.Panicked /\
  controller.currViewNumber (controller.state_of r) = controller.currViewNumber c.
Proof.
  intros Hle Hend.
  assert (Hge : (controller.currViewNumber c >? newViewNumber) = false).
  { rewrite Z.gtb_ltb. apply Z.ltb_ge. exact Hle. }
  unfold_controller.
  destruct (controller.leaderToken c);
    repeat (progress (cbn; rewrite ?Hge, ?Hend)); split; reflexivity.
Qed.

(** A view change that goes through sets the view number, whether or not
    the new view can then be started; with [N <> 0] it aborts the current
    view, awaits its end and starts the new one. *)
Lemma changeView_installs c (newViewNumber newProposalSequence : Z) :
  controller.currViewNumber c <= newViewNumber ->
  controller.viewEnd c <> None ->
  let r := controller.changeView newViewNumber newProposalSequence c in
  controller.currViewNumber (controller.state_of r) = newViewNumber /\
  (controller.N c <> 0 ->
   controller.result_of r = controller.Returned tt /\
   controller.currView (controller.state_of r)
     = {| controller.View_N := controller.N c;
          controller.LeaderID := newViewNumber mod controller.N c;
          controller.SelfID := controller.ID c;
          controller.Quorum := controller.quorum c;
          controller.Number := newViewNumber;
          controller.ProposalSequence := newProposalSequence |} /\
   controller.viewEnd (controller.state_of r)
     = Some (controller.currView (controller.state_of r)) /\
   In (controller.View_Abort (controller.currView c)) (controller.trace_of r) /\
   In (controller.Future_Wait (controller.viewEnd c)) (controller.trace_of r) /\
   In (controller.View_Start (controller.currView (controller.state_of r)))
      (controller.trace_of r)).
Proof.
  intros Hle Hstarted.
  destruct (controller.viewEnd c) as [f |] eqn:Hend; [clear Hstarted | congruence].
  assert (Hge : (controller.currViewNumber c >? newViewNumber) = false).
  { rewrite Z.gtb_ltb. apply Z.ltb_ge. exact Hle. }
  unfold_controller. unfold GoInt.uint64_rem.
  destruct (Z.eqb_spec (controller.N c) 0) as [HN | HN].
  - destruct (controller.leaderToken c) eqn:Htok;
      repeat (progress (cbn; rewrite ?Hge, ?Hend, ?HN));
      (split; [reflexivity | intros; contradiction]).
  - apply Z.eqb_neq in HN as HN'.
    destruct (newViewNumber mod controller.N c =? controller.ID c) eqn:Hid;
      destruct (controller.leaderToken c) eqn:Htok;
      repeat (progress (cbn; rewrite ?Hge, ?Hend, ?HN', ?Hid, ?Htok));
      (split; [reflexivity | intros _; repeat split; auto 10]).
Qed.

Lemma changeView_never_lowers c (newViewNumber newProposalSequence : Z) :
  controller.currViewNumber c
    <= controller.currViewNumber
         (controller.state_of (controller.changeView newViewNumber newProposalSequence c)).
Proof.
  destruct (Z.le_gt_cases (controller.currViewNumber c) newViewNumber) as [Hle | Hgt].
  - destruct (controller.viewEnd c) as [f |] eqn:Hend.
    + rewrite (proj1 (changeView_installs c newViewNumber newProposalSequence Hle
                        ltac:(congruence))).
      exact Hle.
    + rewrite (proj2 (changeView_unstarted c newViewNumber newProposalSequence Hle Hend)).
      lia.
  - destruct (changeView_stale c newViewNumber newProposalSequence ltac:(lia))
      as (_ & -> & _). lia.
Qed.

Lemma changeViews_never_lower (l : list (Z * Z)) c :
  controller.currViewNumber c
    <= controller.currViewNumber (controller.state_of (controller.changeViews l c)).
Proof.
  revert c. induction l as [| [v s] l IH]; intros c.
  - cbn. lia.
  - pose proof (changeView_never_lowers c v s) as Hstep.
    cbn [controller.changeViews]. cbv [mbind controller.M_bind].
    destruct (controller.changeView v s c) as [[[[] |] c1] t1] eqn:Hcv.
    + specialize (IH c1).
      destruct (controller.changeViews l c1) as [[r c2] t2].
      unfold controller.state_of in *. cbn in *. lia.
    + exact Hstep.
Qed.

(** C4.  A call [changeView(newViewNumber, newProposalSequence)] with the
    current view number above [newViewNumber] leaves the view number, the
    current view and its future as they were and starts no view; any other
    call, on a controller that was started, sets the current view number
    to [newViewNumber].  Hence no call, and no sequence of calls, lowers
    the current view number. *)
Theorem changeView_monotone c (newViewNumber newProposalSequence : Z) :
  let r := controller.changeView newViewNumber newProposalSequence c in
  (controller.currViewNumber c > newViewNumber ->
   controller.currViewNumber (controller.state_of r) = controller.currViewNumber c /\
   controller.currView (controller.state_of r) = controller.currView c /\
   controller.viewEnd (controller.state_of r) = controller.viewEnd c /\
   forall v, ~ In (controller.View_Start v) (controller.trace_of r)) /\
  (controller.currViewNumber c <= newViewNumber ->
   controller.viewEnd c <> None ->
   controller.currViewNumber (controller.state_of r) = newViewNumber) /\
  controller.currViewNumber c <= controller.currViewNumber (controller.state_of r) /\
  forall l : list (Z * Z),
    controller.currViewNumber c
      <= controller.currViewNumber (controller.state_of (controller.changeViews l c)).
Proof.
  intros r. subst r. split; [| split; [| split]].
  - intros Hgt.
    destruct (changeView_stale c newViewNumber newProposalSequence Hgt)
      as (_ & Hn & Hv & He & Ht).
    repeat split; try assumption.
    intros v Hin. rewrite Ht in Hin. destruct Hin as [Hin | []]. discriminate.
  - intros Hle Hstarted.
    apply (changeView_installs c newViewNumber newProposalSequence Hle Hstarted).
  - apply changeView_never_lowers.
  - intros l. apply changeViews_never_lower.
Qed.

End ViewChange.

(** ** The controller at work *)

(** Node 1 of four is a follower in view 0: it forwards to node 0, then
    complains. *)
Lemma request_timeouts_witness :
  controller.trace_of (controller.OnRequestTimeout sample_request sample_info (node 1 4 0))
    = [controller.Logger_Warnf
         "Request %s timeout expired, forwarding request to leader: %d"
         [controller.ArgInfo sample_info; controller.ArgUint64 0];
       controller.Comm_SendTransaction 0 sample_request] /\
  controller.trace_of
    (controller.OnLeaderFwdRequestTimeout sample_request sample_info (node 1 4 0))
    = [controller.Logger_Warnf
         "Request %s leader-forwarding timeout expired, complaining about leader: %d"
         [controller.ArgInfo sample_info; controller.ArgUint64 0];
       controller.FailureDetector_Complain].
Proof.
  destruct (@request_timeouts_forward_then_complain (bounded_pool 200)
              (node 1 4 0) sample_request sample_info 0 eq_refl)
    as (_ & _ & Hreq & Hfwd).
  rewrite Hreq, Hfwd. split; reflexivity.
Defined.

(** C6, as stated, fails on the leader: node 0 of four leads view 0, and
    when its timeouts expire it neither forwards the request nor
    complains. *)
Lemma leader_timeouts_counterexample :
  (forall target,
     ~ In (controller.Comm_SendTransaction target sample_request)
          (controller.trace_of
             (controller.OnRequestTimeout sample_request sample_info (node 0 4 0)))) /\
  ~ In controller.FailureDetector_Complain
       (controller.trace_of
          (controller.OnLeaderFwdRequestTimeout sample_request sample_info (node 0 4 0))).
Proof.
  split.
  - intros target [Hin | []]. discriminate.
  - intros [Hin | []]. discriminate.
Qed.

(** A view change from view 2 to view 1 is dropped, one to view 5 goes
    through. *)
Lemma changeView_witness :
  controller.currViewNumber
    (controller.state_of (controller.changeView 1 10 (node 1 4 2))) = 2 /\
  controller.currViewNumber
    (controller.state_of (controller.changeView 5 10 (node 1 4 2))) = 5.
Proof.
  split.
  - apply (proj1 (@changeView_monotone (bounded_pool 200) (node 1 4 2) 1 10)).
    reflexivity.
  - apply (proj1 (proj2 (@changeView_monotone (bounded_pool 200) (node 1 4 2) 5 10))).
    + discriminate.
    + discriminate.
Defined.

(** ** The leader of a view *)

(** [getLeaderID] returns the element at index [view mod N] of the sorted
    identities, whatever the order in which the caller holds them, and
    leaves the caller's slice sorted. *)
Lemma getLeaderID_sorted_index (view : Z) (nodes s : list Z) :
  nodes <> [] -> 0 <= view ->
  s ≡ₚ nodes -> Sorted Z.le s ->
  getLeaderID view (Z.of_nat (length nodes)) nodes
    = (s !! Z.to_nat (view mod Z.of_nat (length nodes)), s) /\
  exists leader, fst (getLeaderID view (Z.of_nat (length nodes)) nodes) = Some leader /\
                 In leader nodes.
Proof.
  intros Hne Hview Hperm Hsorted.
  assert (Hs : sort_Slice nodes = s).
  { unfold sort_Slice. apply (Sorted_unique Z.le).
    - apply Sorted_merge_sort. apply _.
    - exact Hsorted.
    - rewrite merge_sort_Permutation. symmetry. exact Hperm. }
  assert (Hlen : (0 < length nodes)%nat) by (destruct nodes; [congruence | cbn; lia]).
  assert (Hrem : GoInt.uint64_rem view (Z.of_nat (length nodes))
                 = Some (view mod Z.of_nat (length nodes))).
  { unfold GoInt.uint64_rem.
    destruct (Z.eqb_spec (Z.of_nat (length nodes)) 0); [lia | reflexivity]. }
  unfold getLeaderID. rewrite Hs, Hrem. cbn.
  split; [reflexivity |].
  pose proof (Z.mod_pos_bound view (Z.of_nat (length nodes)) ltac:(lia)) as Hb.
  destruct (lookup_lt_is_Some_2 s (Z.to_nat (view mod Z.of_nat (length nodes))))
    as [leader Hl].
  { rewrite (Permutation_length Hperm). lia. }
  exists leader. split; [exact Hl |].
  apply list_elem_of_In. rewrite <- Hperm. eapply list_elem_of_lookup_2. exact Hl.
Qed.

(** C1.  [getLeaderID] follows the rule [sort(nodes)[v mod N]], the
    controller does not: [Controller.leaderID] is [v mod N] itself.  With
    the identities 1, 2, 3, 4 of the basic test the leader of view 0 is
    node 1 by the rule, while every controller computes the leader 0,
    which is no node, and no node takes itself for the leader. *)
Theorem Controller_leaderID_ignores_membership :
  let nodes := [4; 2; 1; 3] in
  getLeaderID 0 4 nodes = (Some 1, [1; 2; 3; 4]) /\
  ~ In 0 nodes /\
  forall id, In id nodes ->
    controller.result_of (controller.leaderID (node id 4 0)) = controller.Returned 0 /\
    controller.result_of (controller.iAmTheLeader (node id 4 0))
      = controller.Returned (false, 0).
Proof.
  cbv zeta. split; [reflexivity |]. split.
  - cbn. intros H. repeat (destruct H as [H | H]; [discriminate |]). exact H.
  - intros id Hin. cbn in Hin.
    repeat (destruct Hin as [<- | Hin]; [split; reflexivity |]). destruct Hin.
Qed.

(** ** Vote sets *)

Section VoteSetFacts.

Import VoteSet.

(** A vote that fails the predicate changes nothing. *)
Lemma registerVote_invalid (vs : voteSet) (voter : Z) (message : Message) :
  validVote vs voter message = false ->
  registerVote vs voter message = (Returned, vs, []).
Proof. intros Hv. unfold registerVote. rewrite Hv. reflexivity. Qed.

(** A vote of a voter who is in the [voted] map changes nothing. *)
Lemma registerVote_double (vs : voteSet) (voter : Z) (message : Message) :
  hasVoted vs voter = true ->
  registerVote vs voter message = (Returned, vs, []).
Proof.
  intros Hv. unfold registerVote. rewrite Hv.
  destruct (negb (validVote vs voter message)); reflexivity.
Qed.

(** What a call can do: nothing at all, or record the voter and pass one
    vote of that voter, who had not voted, to the channel. *)
Lemma registerVote_cases (vs : voteSet) (voter : Z) (message : Message) :
  let '(r, vs', new) := registerVote vs voter message in
  (vs' = vs /\ new = [] /\ (r = Returned \/ r = Panicked)) \/
  (hasVoted vs voter = false /\ validVote vs voter message = true /\
   (exists s, voted vs = Some s /\ voted vs' = Some ({[voter]} ∪ s)) /\
   ((r = Returned /\ new = [mkVote message voter]) \/
    (r = BlockedOnSend (mkVote message voter) /\ new = []))).
Proof.
  unfold registerVote.
  destruct (validVote vs voter message) eqn:Hvalid; cbn [negb]; [| left; auto].
  destruct (hasVoted vs voter) eqn:Hhas; [left; auto |].
  destruct (voted vs) as [s |] eqn:Hvoted; [| left; auto].
  cbn [votes voted validVote].
  destruct (chan_send (votes vs) _) as [ch |]; right; cbn [voted];
    (split; [reflexivity |]); (split; [reflexivity |]); (split; [by exists s |]);
    [left | right]; auto.
Qed.

Lemma one_vote_per_voter_start (vs : voteSet) : one_vote_per_voter (start vs).
Proof.
  split; cbn.
  - constructor.
  - intros v [].
Qed.

Lemma receive_in_flight (st : state) :
  in_flight (receive st) = in_flight st /\
  voted (st_vs (receive st)) = voted (st_vs st).
Proof.
  destruct st as [vs status sent]. unfold receive, in_flight. cbn.
  destruct (votes vs) as [ch |]; [| auto].
  destruct (queue ch) as [| v rest], status; cbn;
    rewrite ?app_nil_r; auto.
Qed.

Lemma hasVoted_voted (vs vs' : voteSet) (voter : Z) :
  voted vs' = voted vs -> hasVoted vs' voter = hasVoted vs voter.
Proof. unfold hasVoted. intros ->. reflexivity. Qed.

Lemma exec_one_vote_per_voter (st : state) (o : op) :
  one_vote_per_voter st -> one_vote_per_voter (exec st o).
Proof.
  intros [Hnd Hvoted]. destruct o as [voter message |]; cbn [exec].
  - destruct (st_status st) eqn:Hst; try (split; assumption).
    pose proof (registerVote_cases (st_vs st) voter message) as Hcases.
    destruct (registerVote (st_vs st) voter message) as [[r vs'] new].
    unfold in_flight in Hnd, Hvoted. rewrite Hst, app_nil_r in Hnd, Hvoted.
    destruct Hcases as [(-> & -> & Hr) | (Hhas & _ & (s & Hs & Hs') & Hr)].
    + unfold one_vote_per_voter, in_flight. cbn.
      rewrite !app_nil_r.
      destruct Hr as [-> | ->]; rewrite app_nil_r; split; assumption.
    + assert (Hfl : in_flight {| st_vs := vs'; st_status := r;
                                 st_sent := st_sent st ++ new |}
                    = st_sent st ++ [mkVote message voter]).
      { unfold in_flight. cbn.
        destruct Hr as [[-> ->] | [-> ->]]; [apply app_nil_r |].
        rewrite app_nil_r. reflexivity. }
      unfold one_vote_per_voter. rewrite Hfl. cbn [st_vs]. split.
      * rewrite fmap_app. cbn. apply NoDup_app. split; [exact Hnd |].
        split; [| apply NoDup_singleton].
        intros x Hx Hx'. apply list_elem_of_singleton in Hx'. subst x.
        apply list_elem_of_fmap in Hx as (v & Hv & Hin).
        apply list_elem_of_In in Hin. specialize (Hvoted v Hin).
        rewrite <- Hv in Hvoted. congruence.
      * intros v Hin. apply in_app_or in Hin as [Hin | [<- | []]].
        -- specialize (Hvoted v Hin). unfold hasVoted in *.
           rewrite Hs in Hvoted. rewrite Hs'.
           apply bool_decide_eq_true. apply bool_decide_eq_true in Hvoted.
           apply elem_of_union. right. exact Hvoted.
        -- cbn. unfold hasVoted. rewrite Hs'.
           apply bool_decide_eq_true. apply elem_of_union. left.
           apply elem_of_singleton. reflexivity.
  - destruct (receive_in_flight st) as [Hfl Hv].
    unfold one_vote_per_voter. rewrite Hfl. split; [exact Hnd |].
    intros v Hin. rewrite (hasVoted_voted _ _ _ Hv). apply Hvoted. exact Hin.
Qed.

Lemma run_one_vote_per_voter (ops : list op) (st : state) :
  one_vote_per_voter st -> one_vote_per_voter (run st ops).
Proof.
  revert st. induction ops as [| o ops IH]; intros st Hst; cbn.
  - exact Hst.
  - apply IH. apply exec_one_vote_per_voter. exact Hst.
Qed.

(** C3.  A message that fails [validVote] changes nothing; a vote of a
    voter who voted already changes neither the [voted] map nor the votes
    channel, and the call returns; and whatever calls and receives follow
    one another on a vote set, the votes that enter its channel come from
    pairwise different voters. *)
Theorem registerVote_one_vote_per_voter :
  (forall vs voter message,
     validVote vs voter message = false ->
     registerVote vs voter message = (Returned, vs, [])) /\
  (forall vs voter message s,
     voted vs = Some s -> voter ∈ s ->
     registerVote vs voter message = (Returned, vs, [])) /\
  (forall vs ops, NoDup (sender <$> st_sent (run (start vs) ops))).
Proof.
  split; [exact registerVote_invalid |]. split.
  - intros vs voter message s Hs Hin. apply registerVote_double.
    unfold hasVoted. rewrite Hs. apply bool_decide_eq_true. exact Hin.
  - intros vs ops.
    destruct (run_one_vote_per_voter ops (start vs) (one_vote_per_voter_start vs))
      as [Hnd _].
    unfold in_flight in Hnd. rewrite fmap_app in Hnd.
    apply NoDup_app in Hnd as [Hnd _]. exact Hnd.
Qed.

End VoteSetFacts.

(** A vote set for four nodes that accepts Prepare messages; node 1 votes,
    votes again with another digest, then node 2 votes. *)
Lemma registerVote_witness :
  VoteSet.registerVote fresh_prepares 1 heartbeat_message
    = (VoteSet.Returned, fresh_prepares, []) /\
  VoteSet.registerVote voted_prepares 1 other_prepare_message
    = (VoteSet.Returned, voted_prepares, []) /\
  NoDup (VoteSet.sender <$>
           VoteSet.st_sent
             (VoteSet.run (VoteSet.start fresh_prepares)
                [VoteSet.Register 1 prepare_message;
                 VoteSet.Register 1 other_prepare_message;
                 VoteSet.Register 2 prepare_message;
                 VoteSet.Receive])).
Proof.
  destruct registerVote_one_vote_per_voter as (Hinvalid & Hdouble & Hrun).
  split; [apply Hinvalid; reflexivity |]. split.
  - apply (Hdouble voted_prepares 1 other_prepare_message {[1]}).
    + reflexivity.
    + apply elem_of_singleton. reflexivity.
  - apply Hrun.
Defined.

(** The equivocating second Prepare of node 1 is not in the channel. *)
Example equivocation_ignored :
  VoteSet.st_sent
    (VoteSet.run (VoteSet.start fresh_prepares)
       [VoteSet.Register 1 prepare_message;
        VoteSet.Register 1 other_prepare_message;
        VoteSet.Register 2 prepare_message;
        VoteSet.Receive])
  = [VoteSet.mkVote prepare_message 1; VoteSet.mkVote prepare_message 2].
Proof. vm_compute. reflexivity. Qed.

(** ** Sample runs *)

(** The nil message and the message without content reach no component
    either. *)
Example ProcessMessages_nil_message :
  controller.trace_of (controller.ProcessMessages 2 None (node 1 4 0))
  = [controller.Logger_Debugf "Node %d handled message %v from %d with seq %d"
       [controller.ArgUint64 1; controller.ArgMessage None;
        controller.ArgUint64 2; controller.ArgUint64 18446744073709551615]].
Proof. reflexivity. Qed.

(** Scenario S1 of the specification: the second submission of a request
    comes back with the pool's error and leaves the pool as it was. *)
Example SubmitRequest_twice :
  let r1 := @controller.SubmitRequest _ plain_inspector sample_request (node 1 4 0) in
  let r2 := @controller.SubmitRequest _ plain_inspector sample_request
              (controller.state_of r1) in
  controller.result_of r1 = controller.Returned None /\
  controller.result_of r2 = controller.Returned (Some DuplicateRequest) /\
  controller.state_of r2 = controller.state_of r1.
Proof. cbv zeta. repeat split. Qed.

(** Scenario S5 of the specification: seven nodes, view 2. *)
Example getLeaderID_view_2_of_7 :
  fst (getLeaderID 2 7 [6; 5; 4; 3; 2; 1; 0]) = Some 2.
Proof. reflexivity. Qed.

(** A cluster size of zero and an index past the membership panic. *)
Example getLeaderID_panics :
  fst (getLeaderID 5 0 [7; 3; 9; 1]) = None /\
  fst (getLeaderID 5 6 [7; 3; 9; 1]) = None.
Proof. split; reflexivity. Qed.

(** The quorums of the cluster sizes of the test suite. *)
Example computeQuorum_small :
  map (@computeQuorum GoFloat.amd64) [1; 4; 5; 6; 7; 10]
  = [(1, 0); (3, 1); (4, 1); (4, 1); (5, 2); (7, 3)].
Proof. vm_compute. reflexivity. Qed.

(* ===================================================================== *)
(** * Part III: further properties of the code *)
(* ===================================================================== *)

(** ** Rotation of the leader *)

Lemma sort_Slice_Permutation (nodes : list Z) : sort_Slice nodes ≡ₚ nodes.
Proof. apply merge_sort_Permutation. Qed.

Lemma getLeaderID_lookup (view : Z) (nodes : list Z) :
  nodes <> [] ->
  fst (getLeaderID view (Z.of_nat (length nodes)) nodes)
    = sort_Slice nodes !! Z.to_nat (view mod Z.of_nat (length nodes)).
Proof.
  intros Hne. unfold getLeaderID, GoInt.uint64_rem. cbn [fst].
  destruct (Z.eqb_spec (Z.of_nat (length nodes)) 0) as [H0 | _]; [| reflexivity].
  destruct nodes; [congruence | cbn in H0; lia].
Qed.

Lemma getLeaderID_sorted_index_witness :
  getLeaderID 6 4 [7; 3; 9; 1] = (Some 7, [1; 3; 7; 9]).
Proof.
  destruct (getLeaderID_sorted_index 6 [7; 3; 9; 1] [1; 3; 7; 9]) as [Heq _].
  - discriminate.
  - discriminate.
  - exact (sort_Slice_Permutation [7; 3; 9; 1]).
  - repeat constructor; discriminate.
  - exact Heq.
Defined.

(** The leader rotates through the membership: the leader of view
    [v + N] is the leader of view [v], two views less than [N] apart have
    different leaders, and every node leads one of the views [0 .. N-1]. *)
Theorem getLeaderID_round_robin (nodes : list Z) :
  nodes <> [] -> NoDup nodes ->
  let N := Z.of_nat (length nodes) in
  (forall view, 0 <= view ->
     fst (getLeaderID (view + N) N nodes) = fst (getLeaderID view N nodes)) /\
  (forall v1 v2, 0 <= v1 < v2 -> v2 < v1 + N ->
     fst (getLeaderID v1 N nodes) <> fst (getLeaderID v2 N nodes)) /\
  (forall id, In id nodes ->
     exists view, 0 <= view < N /\ fst (getLeaderID view N nodes) = Some id).
Proof.
  intros Hne Hnd N.
  assert (HN : 0 < N) by (subst N; destruct nodes; [congruence | cbn; lia]).
  pose proof (sort_Slice_Permutation nodes) as Hperm.
  assert (Hlen : length (sort_Slice nodes) = length nodes)
    by (apply Permutation_length; exact Hperm).
  assert (Hnd' : NoDup (sort_Slice nodes)) by (rewrite Hperm; exact Hnd).
  subst N. split; [| split].
  - intros view Hview. rewrite !getLeaderID_lookup by assumption.
    replace (view + Z.of_nat (length nodes))
      with (view + 1 * Z.of_nat (length nodes)) by lia.
    rewrite Z_mod_plus_full. reflexivity.
  - intros v1 v2 Hv Hclose. rewrite !getLeaderID_lookup by assumption.
    set (n := Z.of_nat (length nodes)) in *.
    pose proof (Z.mod_pos_bound v1 n HN) as Hb1.
    pose proof (Z.mod_pos_bound v2 n HN) as Hb2.
    destruct (lookup_lt_is_Some_2 (sort_Slice nodes) (Z.to_nat (v1 mod n)))
      as [x Hx]; [lia |].
    rewrite Hx. intros Heq. symmetry in Heq.
    pose proof (NoDup_lookup _ _ _ _ Hnd' Hx Heq) as Hidx.
    assert (Hmod : v1 mod n = v2 mod n) by lia.
    pose proof (Z.div_mod v1 n ltac:(lia)) as Hd1.
    pose proof (Z.div_mod v2 n ltac:(lia)) as Hd2.
    rewrite Hmod in Hd1.
    set (q1 := v1 / n) in *. set (q2 := v2 / n) in *.
    assert (Hdiff : n * (q2 - q1) = v2 - v1) by lia.
    destruct (Z.le_gt_cases (q2 - q1) 0); nia.
  - intros id Hin.
    apply list_elem_of_In in Hin. rewrite <- Hperm in Hin.
    apply list_elem_of_lookup in Hin as [i Hi].
    pose proof (lookup_lt_Some _ _ _ Hi) as Hlt.
    exists (Z.of_nat i). split; [lia |].
    rewrite getLeaderID_lookup by assumption.
    rewrite Z.mod_small by lia. rewrite Nat2Z.id. exact Hi.
Qed.

Lemma getLeaderID_round_robin_witness :
  fst (getLeaderID 1 4 [4; 2; 1; 3]) <> fst (getLeaderID 3 4 [4; 2; 1; 3]) /\
  fst (getLeaderID (1 + 4) 4 [4; 2; 1; 3]) = fst (getLeaderID 1 4 [4; 2; 1; 3]).
Proof.
  assert (Hne : [4; 2; 1; 3] <> []) by discriminate.
  assert (Hnd : NoDup [4; 2; 1; 3]) by compute_done.
  destruct (getLeaderID_round_robin [4; 2; 1; 3] Hne Hnd) as (Hper & Hinj & _).
  split.
  - apply (Hinj 1 3); cbn; lia.
  - apply (Hper 1). lia.
Defined.

(** ** A quorum can be gathered *)

(** Up to [2^52] nodes the quorum is a strict majority that the correct
    nodes can form by themselves: [N / 2 < Q <= N - F].  It equals
    [N - F] except when [N] is a multiple of three ([N = 3 F + 3]), where
    it is one less. *)
Theorem computeQuorum_attainable `{GoFloat.Platform} (N : Z) :
  1 <= N <= 2 ^ 52 ->
  let Q := fst (computeQuorum N) in
  let F := snd (computeQuorum N) in
  N < 2 * Q /\ Q <= N - F /\
  (N mod 3 <> 0 -> Q = N - F) /\
  (N mod 3 = 0 -> Q = N - F - 1).
Proof.
  intros HN Q F. subst Q F.
  rewrite computeQuorum_exact by lia. cbn [fst snd].
  rewrite spec_F_quot by lia. unfold spec_F.
  pose proof (Z.div_mod (N - 1) 3 ltac:(lia)) as Hd.
  pose proof (Z.mod_pos_bound (N - 1) 3 ltac:(lia)) as Hb.
  set (f := (N - 1) / 3) in *.
  pose proof (Z.div_mod (N + f + 1 + 1) 2 ltac:(lia)) as Hd2.
  pose proof (Z.mod_pos_bound (N + f + 1 + 1) 2 ltac:(lia)) as Hb2.
  pose proof (Z.div_mod N 3 ltac:(lia)) as Hd3.
  pose proof (Z.mod_pos_bound N 3 ltac:(lia)) as Hb3.
  repeat split; intros; lia.
Qed.

Lemma computeQuorum_attainable_witness :
  fst (@computeQuorum GoFloat.amd64 6) = 6 - snd (@computeQuorum GoFloat.amd64 6) - 1 /\
  fst (@computeQuorum GoFloat.amd64 7) = 7 - snd (@computeQuorum GoFloat.amd64 7).
Proof.
  split.
  - apply (@computeQuorum_attainable GoFloat.amd64 6); [split; discriminate | reflexivity].
  - apply (@computeQuorum_attainable GoFloat.amd64 7); [split; discriminate | discriminate].
Defined.

(** ** The in-flight proposal *)

Lemma add_prepare_fold (view seq : Z) (dig : string) (signatures : gmap Z bytes)
    (signer : Z) :
  map_fold (InFlight.add_prepare view seq dig) ∅ signatures !! signer
  = (fun sig => {| Prepare_View := view; Prepare_Seq := seq;
                   Prepare_Digest := dig; Prepare_Signature := sig |})
      <$> signatures !! signer.
Proof.
  apply (map_fold_weak_ind
           (fun (acc : gmap Z Prepare) (m : gmap Z bytes) =>
              acc !! signer
              = (fun sig => {| Prepare_View := view; Prepare_Seq := seq;
                               Prepare_Digest := dig; Prepare_Signature := sig |})
                  <$> m !! signer)).
  - rewrite !lookup_empty. reflexivity.
  - intros i x m r Hi IH. unfold InFlight.add_prepare.
    destruct (decide (i = signer)) as [-> | Hne].
    + rewrite !lookup_insert_eq. reflexivity.
    + rewrite !lookup_insert_ne by assumption. exact IH.
Qed.

(** [StorePrepares] panics exactly when no proposal is in flight.
    Otherwise it keeps the proposal and stores one Prepare for each signer
    of the signatures and for nobody else, with the given view and
    sequence, the digest of the proposal and the signer's signature,
    whatever prepares were stored before.  Storing a proposal makes it the
    one in flight and drops the prepares. *)
Theorem StorePrepares_spec (Digest : Proposal -> string)
    (ifp : InFlight.InFlightData) (view seq : Z) (signatures : gmap Z bytes) :
  (InFlight.StorePrepares Digest ifp view seq signatures = None
   <-> InFlight.InFlightProposal ifp = None) /\
  (forall prop, InFlight.InFlightProposal ifp = Some prop ->
   exists ifp',
     InFlight.StorePrepares Digest ifp view seq signatures = Some ifp' /\
     InFlight.InFlightProposal ifp' = Some prop /\
     exists prepares,
       InFlight.InFlightPrepares ifp' = Some prepares /\
       forall signer,
         prepares !! signer
         = (fun sig => {| Prepare_View := view; Prepare_Seq := seq;
                          Prepare_Digest := Digest prop;
                          Prepare_Signature := sig |})
             <$> signatures !! signer) /\
  (forall prop,
     InFlight.InFlightProposal (InFlight.StoreProposal ifp prop) = Some prop /\
     InFlight.InFlightPrepares (InFlight.StoreProposal ifp prop) = None).
Proof.
  split; [| split].
  - unfold InFlight.StorePrepares.
    destruct (InFlight.InFlightProposal ifp); split; intros; congruence.
  - intros prop Hprop. unfold InFlight.StorePrepares. rewrite Hprop.
    eexists. split; [reflexivity |]. split; [reflexivity |].
    eexists. split; [reflexivity |]. apply add_prepare_fold.
  - intros prop. split; reflexivity.
Qed.

Lemma StorePrepares_spec_witness :
  let Digest := fun _ : Proposal => "digest"%string in
  exists ifp prepares,
    InFlight.StorePrepares Digest (InFlight.StoreProposal None sample_proposal)
      3 7 sample_signatures = Some ifp /\
    InFlight.InFlightProposal ifp = Some sample_proposal /\
    InFlight.InFlightPrepares ifp = Some prepares /\
    prepares !! 3
    = Some {| Prepare_View := 3; Prepare_Seq := 7; Prepare_Digest := "digest";
              Prepare_Signature := [Byte.x0b] |} /\
    prepares !! 2 = None.
Proof.
  intros Digest.
  destruct (StorePrepares_spec Digest (InFlight.StoreProposal None sample_proposal)
              3 7 sample_signatures) as (_ & Hstore & _).
  destruct (Hstore sample_proposal eq_refl) as (ifp & Heq & Hprop & prepares & Hprep & Hlook).
  exists ifp, prepares. split; [exact Heq |]. split; [exact Hprop |].
  split; [exact Hprep |]. split; rewrite Hlook; reflexivity.
Defined.

(** ** The proposal maker *)

(** [NewProposer] restores from the log in its first call only.  The view
    it returns is never behind what the caller asked for: its proposal
    sequence and its number are the larger of the requested and the
    restored ones.  It panics exactly when that first restoration fails. *)
Theorem NewProposer_spec (error : Type)
    (Restore : controller.View -> option error * controller.View)
    (pm : ProposalMaker.ProposalMaker) (leader proposalSequence viewNum quorumSize : Z) :
  let requested :=
    {| controller.View_N := ProposalMaker.N pm;
       controller.LeaderID := leader;
       controller.SelfID := ProposalMaker.SelfID pm;
       controller.Quorum := quorumSize;
       controller.Number := viewNum;
       controller.ProposalSequence := proposalSequence |} in
  let r := ProposalMaker.NewProposer error Restore pm
             leader proposalSequence viewNum quorumSize in
  ProposalMaker.restoreOnceFromWAL (snd r) = true /\
  (ProposalMaker.restoreOnceFromWAL pm = true ->
   fst r = controller.Returned requested) /\
  (ProposalMaker.restoreOnceFromWAL pm = false ->
   forall restored, Restore requested = (None, restored) ->
   exists view,
     fst r = controller.Returned view /\
     controller.ProposalSequence view
       = Z.max proposalSequence (controller.ProposalSequence restored) /\
     controller.Number view = Z.max viewNum (controller.Number restored)) /\
  (fst r = controller.Panicked <->
   ProposalMaker.restoreOnceFromWAL pm = false /\
   is_Some (fst (Restore requested))).
Proof.
  intros requested r. subst r. unfold ProposalMaker.NewProposer. fold requested.
  split; [| split; [| split]].
  - destruct (ProposalMaker.restoreOnceFromWAL pm); [| destruct (Restore requested) as [[e |] v]];
      reflexivity.
  - intros ->. cbn.
    rewrite !Z.gtb_ltb, !Z.ltb_irrefl. reflexivity.
  - intros -> restored ->.
    eexists. split; [reflexivity |].
    rewrite !Z.gtb_ltb.
    destruct (Z.ltb_spec (controller.ProposalSequence restored) proposalSequence);
      cbn [controller.Number ProposalMaker.set_ProposalSequence];
      destruct (Z.ltb_spec (controller.Number restored) viewNum); cbn; lia.
  - destruct (ProposalMaker.restoreOnceFromWAL pm).
    + cbn. split; [discriminate | intros [? _]; discriminate].
    + destruct (Restore requested) as [[e |] v]; cbn.
      * split; [intros _; split; [reflexivity | by eexists] | reflexivity].
      * split; [discriminate | intros [_ [x Hx]]; discriminate].
Qed.

(** A log that holds view 5 at sequence 9: the first proposer is brought
    up to it, the second is built as asked. *)
Lemma NewProposer_spec_witness :
  let Restore := fun v : controller.View =>
    (None : option string,
     ProposalMaker.set_Number 5 (ProposalMaker.set_ProposalSequence 9 v)) in
  let pm := {| ProposalMaker.N := 4; ProposalMaker.SelfID := 1;
               ProposalMaker.restoreOnceFromWAL := false |} in
  let r1 := ProposalMaker.NewProposer string Restore pm 0 1 0 3 in
  let r2 := ProposalMaker.NewProposer string Restore (snd r1) 0 1 0 3 in
  (exists view, fst r1 = controller.Returned view /\
                controller.ProposalSequence view = 9 /\ controller.Number view = 5) /\
  fst r2 = controller.Returned
             {| controller.View_N := 4; controller.LeaderID := 0;
                controller.SelfID := 1; controller.Quorum := 3;
                controller.Number := 0; controller.ProposalSequence := 1 |}.
Proof.
  intros Restore pm r1 r2. split.
  - destruct (NewProposer_spec string Restore pm 0 1 0 3) as (_ & _ & Hfirst & _).
    destruct (Hfirst eq_refl _ eq_refl) as (view & Hv & Hs & Hn).
    exists view. split; [exact Hv |]. split; [exact Hs | exact Hn].
  - destruct (NewProposer_spec string Restore (snd r1) 0 1 0 3) as (_ & Hsecond & _).
    apply Hsecond. reflexivity.
Defined.

(** ** Broadcast *)

(** [BroadcastConsensus] sends the message to the nodes that
    [Comm.Nodes()] lists, in that order and once per listing, except to
    this node itself. *)
Theorem BroadcastConsensus_spec (SelfID : Z) (Nodes : list Z) (m : Message) :
  BroadcastConsensus SelfID Nodes m
    = (fun node => (node, m)) <$> filter (fun node => node <> SelfID) Nodes /\
  (forall m', ~ In (SelfID, m') (BroadcastConsensus SelfID Nodes m)) /\
  (forall node, In node Nodes -> node <> SelfID ->
     In (node, m) (BroadcastConsensus SelfID Nodes m)) /\
  (NoDup Nodes -> In SelfID Nodes ->
     NoDup (BroadcastConsensus SelfID Nodes m) /\
     S (length (BroadcastConsensus SelfID Nodes m)) = length Nodes).
Proof.
  assert (Heq : BroadcastConsensus SelfID Nodes m
                = (fun node => (node, m)) <$> filter (fun node => node <> SelfID) Nodes).
  { induction Nodes as [| node rest IH]; [reflexivity |].
    cbn [BroadcastConsensus]. rewrite filter_cons.
    destruct (decide (node = SelfID)) as [-> | Hne].
    - rewrite bool_decide_eq_true_2 by reflexivity.
      rewrite decide_False by (intros Hc; apply Hc; reflexivity). exact IH.
    - rewrite bool_decide_eq_false_2 by congruence.
      rewrite decide_True by assumption. cbn. rewrite IH. reflexivity. }
  split; [exact Heq |]. rewrite Heq. split; [| split].
  - intros m' Hin. apply list_elem_of_In, list_elem_of_fmap in Hin as (x & [= -> _] & Hx).
    apply list_elem_of_filter in Hx as [Hx _]. congruence.
  - intros node Hin Hne. apply list_elem_of_In, list_elem_of_fmap.
    exists node. split; [reflexivity |].
    apply list_elem_of_filter. split; [exact Hne | apply list_elem_of_In; exact Hin].
  - intros Hnd Hself. split.
    + apply NoDup_fmap_2; [intros x y [= ->]; reflexivity |].
      apply NoDup_filter. exact Hnd.
    + rewrite length_fmap. clear Heq.
      induction Nodes as [| node rest IH]; [destruct Hself |].
      apply NoDup_cons in Hnd as [Hnotin Hnd]. rewrite filter_cons.
      destruct (decide (node = SelfID)) as [-> | Hne].
      * rewrite decide_False by (intros Hc; apply Hc; reflexivity).
        cbn. f_equal.
        assert (Hall : filter (fun node => node <> SelfID) rest = rest).
        { clear IH Hself Hnd. induction rest as [| x rest IH]; [reflexivity |].
          apply not_elem_of_cons in Hnotin as [Hx Hrest].
          rewrite filter_cons, decide_True by congruence.
          f_equal. apply IH. exact Hrest. }
        rewrite Hall. reflexivity.
      * rewrite decide_True by assumption.
        cbn. f_equal. apply IH; [exact Hnd |].
        destruct Hself as [-> | Hself]; [congruence | exact Hself].
Qed.

Lemma BroadcastConsensus_spec_witness :
  In (3, prepare_message) (BroadcastConsensus 2 [1; 2; 3; 4] prepare_message) /\
  S (length (BroadcastConsensus 2 [1; 2; 3; 4] prepare_message)) = 4%nat.
Proof.
  destruct (BroadcastConsensus_spec 2 [1; 2; 3; 4] prepare_message)
    as (_ & _ & Hin & Hcount).
  split.
  - apply Hin; [cbn; tauto | discriminate].
  - apply Hcount; [compute_done | cbn; tauto].
Defined.

(** ** More on vote sets *)

Section VoteSetMore.

Import VoteSet VoteSetRoom.

Lemma registerVote_validVote (vs : voteSet) (voter : Z) (message : Message) :
  validVote (registerVote vs voter message).1.2 = validVote vs.
Proof.
  unfold registerVote.
  destruct (negb (validVote vs voter message)); [reflexivity |].
  destruct (hasVoted vs voter); [reflexivity |].
  destruct (voted vs); [| reflexivity].
  cbn. destruct (chan_send (votes vs) _); reflexivity.
Qed.

Lemma receive_validVote (st : state) :
  validVote (st_vs (receive st)) = validVote (st_vs st).
Proof.
  destruct st as [vs status sent]. unfold receive. cbn.
  destruct (votes vs) as [ch |]; [| reflexivity].
  destruct (queue ch), status; reflexivity.
Qed.

Lemma exec_valid (valid : Z -> Message -> bool) (st : state) (o : op) :
  validVote (st_vs st) = valid ->
  Forall (fun v => valid (sender v) (vote_Message v) = true) (in_flight st) ->
  validVote (st_vs (exec st o)) = valid /\
  Forall (fun v => valid (sender v) (vote_Message v) = true) (in_flight (exec st o)).
Proof.
  intros Hvalid Hall. destruct o as [voter message |]; cbn [exec].
  - destruct (st_status st) eqn:Hst; try (split; assumption).
    pose proof (registerVote_cases (st_vs st) voter message) as Hcases.
    pose proof (registerVote_validVote (st_vs st) voter message) as Hv.
    destruct (registerVote (st_vs st) voter message) as [[r vs'] new].
    cbn in Hv. cbn [st_vs]. split; [congruence |].
    unfold in_flight in *. rewrite Hst, app_nil_r in Hall. cbn.
    destruct Hcases as [(-> & -> & Hr) | (_ & Hok & _ & Hr)].
    + rewrite app_nil_r. destruct Hr as [-> | ->]; rewrite app_nil_r; exact Hall.
    + rewrite Hvalid in Hok.
      destruct Hr as [[-> ->] | [-> ->]]; rewrite ?app_nil_r;
        (apply Forall_app; split; [exact Hall |]);
        repeat constructor; exact Hok.
  - destruct (receive_in_flight st) as [Hfl _].
    rewrite Hfl, receive_validVote. split; assumption.
Qed.

(** Whatever is registered and received, every vote that enters the
    channel passed the predicate of the vote set for its sender. *)
Theorem sent_votes_are_valid (vs : voteSet) (ops : list op) :
  Forall (fun v => validVote vs (sender v) (vote_Message v) = true)
         (st_sent (run (start vs) ops)).
Proof.
  assert (Hgen : forall (st : state),
             validVote (st_vs st) = validVote vs ->
             Forall (fun v => validVote vs (sender v) (vote_Message v) = true)
                    (in_flight st) ->
             Forall (fun v => validVote vs (sender v) (vote_Message v) = true)
                    (in_flight (run st ops))).
  { induction ops as [| o ops IH]; intros st Hv Hall; cbn; [exact Hall |].
    destruct (exec_valid (validVote vs) st o Hv Hall) as [Hv' Hall'].
    apply IH; assumption. }
  specialize (Hgen (start vs) eq_refl (Forall_nil_2 _)).
  unfold in_flight in Hgen. apply Forall_app in Hgen as [Hgen _]. exact Hgen.
Qed.

Lemma chan_send_room (q : list vote) (n : nat) (v : vote) :
  (length q < n)%nat ->
  chan_send (Some {| queue := q; capacity := n |}) v
  = Some {| queue := q ++ [v]; capacity := n |}.
Proof.
  intros Hlt. unfold chan_send. cbn [queue capacity].
  destruct (Nat.ltb_spec (length q) n); [reflexivity | lia].
Qed.

Lemma exec_has_room (members : gset Z) (n : nat) (st : state) (o : op) :
  (size members <= n)%nat ->
  match o with Register voter _ => voter ∈ members | Receive => True end ->
  has_room members n st -> has_room members n (exec st o).
Proof.
  intros Hsize Hin (Hst & s & q & Hs & Hq & Hsub & Hlen).
  destruct st as [vs status sent]. cbn in *. subst status.
  destruct o as [voter message |]; cbn.
  - unfold registerVote, hasVoted. rewrite Hs.
    destruct (negb (validVote vs voter message)).
    { split; [reflexivity |]. exists s, q. auto. }
    destruct (bool_decide (voter ∈ s)) eqn:Hv.
    { split; [reflexivity |]. exists s, q. auto. }
    apply bool_decide_eq_false in Hv.
    assert (Hsub' : {[voter]} ∪ s ⊆ members).
    { intros x [Hx%elem_of_singleton | Hx]%elem_of_union; [subst x; exact Hin | auto]. }
    assert (Hsz : size ({[voter]} ∪ s) = S (size s)).
    { rewrite size_union; [rewrite size_singleton; reflexivity |].
      intros x Hx%elem_of_singleton Hx'. subst x. contradiction. }
    pose proof (subseteq_size _ _ Hsub') as Hle. rewrite Hsz in Hle.
    cbn [votes voted validVote]. rewrite Hq.
    rewrite (chan_send_room q n) by lia.
    cbn. split; [reflexivity |].
    exists ({[voter]} ∪ s), (q ++ [mkVote message voter]).
    repeat split; [exact Hsub' |]. rewrite length_app. cbn. lia.
  - unfold receive. cbn. rewrite Hq. cbn.
    destruct q as [| v rest]; cbn.
    + split; [reflexivity |]. exists s, []. cbn. repeat split; auto; lia.
    + split; [reflexivity |]. exists s, rest. cbn in *.
      repeat split; auto; lia.
Qed.

(** Where [make] returns, [clear] leaves the fresh vote set. *)
Lemma clear_returns (maxChanSize : Z) (vs vs' : voteSet) (n : Z) :
  VoteSetRoom.clear maxChanSize vs n = Some vs' ->
  n <= maxChanSize /\ n < 2 ^ 63 /\ vs' = VoteSet.clear vs n.
Proof.
  unfold VoteSetRoom.clear, make_chan.
  destruct (Z.leb_spec n maxChanSize) as [Hle | Hgt]; [| discriminate].
  destruct (Z.ltb_spec n (2 ^ 63)) as [Hlt | Hge]; [| discriminate].
  cbn. intros [= <-]. repeat split; assumption.
Qed.

(** A channel of capacity [n] is enough for [n] voters: once [clear(n)]
    has returned, if the voters come from at most [n] identities, no call
    of [registerVote] blocks on the channel or panics, whether or not
    votes are received in between.  [clear(n)] itself does not return
    when [n] is more than [make] accepts, and never for [n >= 2^63]. *)
Theorem registerVote_never_blocks (maxChanSize : Z) (vs : voteSet) (n : Z) :
  (2 ^ 63 <= n \/ maxChanSize < n -> VoteSetRoom.clear maxChanSize vs n = None) /\
  forall (vs' : voteSet) (members : gset Z) (ops : list op),
    VoteSetRoom.clear maxChanSize vs n = Some vs' ->
    Z.of_nat (size members) <= n ->
    voters_within members ops ->
    st_status (run (start vs') ops) = Returned.
Proof.
  split.
  - intros Hbig. unfold VoteSetRoom.clear, make_chan.
    destruct (Z.leb_spec n maxChanSize) as [Hle | Hgt]; [| reflexivity].
    destruct (Z.ltb_spec n (2 ^ 63)) as [Hlt | Hge]; [| reflexivity].
    exfalso. destruct Hbig as [Hbig | Hbig]; lia.
  - intros vs' members ops Hclear Hsize Hops.
    apply clear_returns in Hclear as (_ & _ & ->).
    assert (Hgen : forall st, has_room members (Z.to_nat n) st ->
                              has_room members (Z.to_nat n) (run st ops)).
    { induction Hops as [| o ops Ho Hops IH]; intros st Hst; cbn; [exact Hst |].
      apply IH. apply exec_has_room; [lia | exact Ho | exact Hst]. }
    apply Hgen. split; [reflexivity |].
    exists ∅, []. cbn. repeat split; [apply empty_subseteq | lia].
Qed.

End VoteSetMore.

(** Four voters, one of them twice, on a vote set cleared for four, with a
    runtime that accepts channels of up to [2^20] slots; and no vote set
    at all for [2^63] voters. *)
Lemma registerVote_never_blocks_witness :
  VoteSetRoom.clear (2 ^ 20) fresh_prepares (2 ^ 63) = None /\
  VoteSet.st_status
    (VoteSet.run (VoteSet.start fresh_prepares)
       [VoteSet.Register 1 prepare_message;
        VoteSet.Register 2 prepare_message;
        VoteSet.Register 1 other_prepare_message;
        VoteSet.Register 3 prepare_message;
        VoteSet.Register 4 prepare_message])
  = VoteSet.Returned.
Proof.
  split.
  - apply (registerVote_never_blocks (2 ^ 20) fresh_prepares (2 ^ 63)).
    left. reflexivity.
  - apply (proj2 (registerVote_never_blocks (2 ^ 20) fresh_prepares 4)
             fresh_prepares (list_to_set [1; 2; 3; 4])).
    + reflexivity.
    + vm_compute. discriminate.
    + repeat constructor; set_solver.
Defined.

(** ** Starting the controller *)

Section ControllerMore.

Context `{GoFloat.Platform} `{controller.RequestPool} `{controller.RequestInspector}.

Implicit Types c : controller.Controller.

Lemma Controller_computeQuorum_value c :
  controller.computeQuorum c
  = (controller.Returned (fst (computeQuorum (controller.N c))), c,
     [controller.Logger_Debugf
        "The number of nodes (N) is %d, F is %d, and the quorum size is %d"
        [controller.ArgUint64 (controller.N c);
         controller.ArgInt (snd (computeQuorum (controller.N c)));
         controller.ArgInt (fst (computeQuorum (controller.N c)))]]).
Proof.
  cbv [controller.computeQuorum computeQuorum mbind mret
       controller.M_bind controller.M_ret controller.gets controller.emit
       fst snd app].
  reflexivity.
Qed.

(** The controller that [Start] hands to the run loop.  On a cluster of
    [N <> 0] nodes [Start] reaches the [go] statement that launches
    [run], and at that point the controller has the quorum of
    [computeQuorum], the view number it was given, a started view that
    carries that number, the leader [view mod N] and the proposal
    sequence, and the leader token in its channel exactly when this node
    is that leader.  (The run loop may take the token before [Start]
    returns to its caller; what the loop keeps is stated for [run].)
    With [N = 0] [Start] panics on [leaderID] before any view is started
    and before the loop is launched. *)
Theorem Start_spec (startViewNumber startProposalSequence : Z) c :
  let r := controller.Start startViewNumber startProposalSequence c in
  let c' := controller.state_of r in
  let view := {| controller.View_N := controller.N c;
                 controller.LeaderID := startViewNumber mod controller.N c;
                 controller.SelfID := controller.ID c;
                 controller.Quorum := fst (computeQuorum (controller.N c));
                 controller.Number := startViewNumber;
                 controller.ProposalSequence := startProposalSequence |} in
  (controller.N c <> 0 ->
   controller.result_of r = controller.Returned tt /\
   controller.quorum c' = fst (computeQuorum (controller.N c)) /\
   controller.currViewNumber c' = startViewNumber /\
   controller.currView c' = view /\
   controller.viewEnd c' = Some view /\
   controller.leaderToken c'
     = Some (startViewNumber mod controller.N c =? controller.ID c) /\
   controller.RequestPool_state c' = controller.RequestPool_state c /\
   In (controller.View_Start view) (controller.trace_of r)) /\
  (controller.N c = 0 ->
   controller.result_of r = controller.Panicked /\
   forall v, ~ In (controller.View_Start v) (controller.trace_of r)).
Proof.
  cbv zeta.
  unfold controller.Start. cbv [mbind controller.M_bind controller.modify].
  rewrite Controller_computeQuorum_value.
  cbn [controller.N controller.set_leaderToken].
  remember (computeQuorum (controller.N c)) as qf eqn:Hqf.
  unfold_controller. unfold GoInt.uint64_rem.
  split.
  - intros HN. apply Z.eqb_neq in HN as HN'.
    destruct (startViewNumber mod controller.N c =? controller.ID c) eqn:Hid;
      repeat (progress (cbn; rewrite ?HN', ?Hid));
      repeat split; auto 10.
  - intros HN.
    repeat (progress (cbn; rewrite ?HN)).
    split; [reflexivity |].
    intros v [Hin | []]. discriminate.
Qed.

Lemma Start_token (viewNumber proposalSequence : Z) c :
  LeaderToken.only_for_leader
    (controller.state_of (controller.Start viewNumber proposalSequence c)).
Proof.
  unfold LeaderToken.only_for_leader.
  unfold controller.Start. cbv [mbind controller.M_bind controller.modify].
  rewrite Controller_computeQuorum_value.
  cbn [controller.N controller.set_leaderToken].
  remember (computeQuorum (controller.N c)) as qf eqn:Hqf.
  unfold_controller. unfold GoInt.uint64_rem.
  destruct (controller.N c =? 0) eqn:HN;
    destruct (viewNumber mod controller.N c =? controller.ID c) eqn:Hid;
    repeat (progress (cbn; rewrite ?HN, ?Hid));
    try discriminate;
    intros _; split; [apply Z.eqb_neq; assumption | apply Z.eqb_eq; assumption].
Qed.

Lemma changeView_token (viewNumber proposalSequence : Z) c :
  LeaderToken.only_for_leader
    (controller.state_of (controller.changeView viewNumber proposalSequence c)).
Proof.
  unfold LeaderToken.only_for_leader.
  unfold_controller. unfold GoInt.uint64_rem.
  destruct (controller.N c =? 0) eqn:HN;
    destruct (controller.currViewNumber c >? viewNumber) eqn:Hgt;
    destruct (controller.viewEnd c) as [f |] eqn:Hend;
    destruct (viewNumber mod controller.N c =? controller.ID c) eqn:Hid;
    destruct (controller.leaderToken c) as [tok |] eqn:Htok;
    repeat (progress (cbn; rewrite ?Hgt, ?Hend, ?HN, ?Hid, ?Htok));
    try discriminate;
    intros _; split; [apply Z.eqb_neq; assumption | apply Z.eqb_eq; assumption].
Qed.

(** A view change leaves the identity of the node and the size of the
    cluster alone. *)
Lemma changeView_frame (viewNumber proposalSequence : Z) c :
  controller.N (controller.state_of (controller.changeView viewNumber proposalSequence c))
    = controller.N c /\
  controller.ID (controller.state_of (controller.changeView viewNumber proposalSequence c))
    = controller.ID c.
Proof.
  unfold_controller. unfold GoInt.uint64_rem.
  destruct (controller.N c =? 0) eqn:HN;
    destruct (controller.currViewNumber c >? viewNumber) eqn:Hgt;
    destruct (controller.viewEnd c) as [f |] eqn:Hend;
    destruct (viewNumber mod controller.N c =? controller.ID c) eqn:Hid;
    destruct (controller.leaderToken c) as [tok |] eqn:Htok;
    repeat (progress (cbn; rewrite ?Hgt, ?Hend, ?HN, ?Hid, ?Htok));
    split; reflexivity.
Qed.

(** After [Start] and after [changeView], however they end, the leader
    token is in the channel only if this node leads the current view.  A
    stale view change takes the token away from a leader that holds it,
    and does not give it back. *)
Theorem leaderToken_only_for_leader (viewNumber proposalSequence : Z) c :
  LeaderToken.only_for_leader
    (controller.state_of (controller.Start viewNumber proposalSequence c)) /\
  LeaderToken.only_for_leader
    (controller.state_of (controller.changeView viewNumber proposalSequence c)) /\
  (controller.currViewNumber c > viewNumber ->
   controller.leaderToken
     (controller.state_of (controller.changeView viewNumber proposalSequence c))
   = (fun _ => false) <$> controller.leaderToken c).
Proof.
  split; [apply Start_token |]. split; [apply changeView_token |].
  intros Hgt.
  assert (Hlt : (controller.currViewNumber c >? viewNumber) = true).
  { rewrite Z.gtb_ltb. apply Z.ltb_lt. lia. }
  unfold_controller.
  destruct (controller.leaderToken c) eqn:Htok; cbn; rewrite Hlt; cbn;
    rewrite ?Htok; reflexivity.
Qed.

(** A view change that goes through first aborts the current view, then
    waits for it to end, and only then starts the new view; the batcher is
    reset after that, and only on the leader of the new view. *)
Theorem changeView_order (newViewNumber newProposalSequence : Z) c :
  controller.currViewNumber c <= newViewNumber ->
  controller.viewEnd c <> None ->
  controller.N c <> 0 ->
  controller.trace_of (controller.changeView newViewNumber newProposalSequence c)
  = [controller.Logger_Debugf "Aborting current view with number %d"
       [controller.ArgUint64 (controller.currViewNumber c)];
     controller.View_Abort (controller.currView c);
     controller.Future_Wait (controller.viewEnd c);
     controller.Logger_Debugf "Starting view with number %d"
       [controller.ArgUint64 newViewNumber];
     controller.View_Start
       {| controller.View_N := controller.N c;
          controller.LeaderID := newViewNumber mod controller.N c;
          controller.SelfID := controller.ID c;
          controller.Quorum := controller.quorum c;
          controller.Number := newViewNumber;
          controller.ProposalSequence := newProposalSequence |}]
    ++ (if newViewNumber mod controller.N c =? controller.ID c
        then [controller.Batcher_Reset] else []).
Proof.
  intros Hle Hstarted HN.
  destruct (controller.viewEnd c) as [f |] eqn:Hend; [clear Hstarted | congruence].
  assert (Hge : (controller.currViewNumber c >? newViewNumber) = false).
  { rewrite Z.gtb_ltb. apply Z.ltb_ge. exact Hle. }
  apply Z.eqb_neq in HN as HN'.
  unfold_controller. unfold GoInt.uint64_rem.
  destruct (newViewNumber mod controller.N c =? controller.ID c) eqn:Hid;
    destruct (controller.leaderToken c) eqn:Htok;
    repeat (progress (cbn; rewrite ?Hge, ?Hend, ?HN', ?Hid, ?Htok));
    reflexivity.
Qed.

(** The timeout handlers and [ProcessMessages] never change the
    controller.  [ProcessMessages] and [OnAutoRemoveTimeout] always
    return; the other two handlers return unless [N = 0], where they panic
    on [leaderID] before they do anything. *)
Theorem handlers_keep_the_state
    (request : bytes) (info : controller.RequestInfo) (sender : Z) (m : Message) c :
  (controller.state_of (controller.OnRequestTimeout request info c) = c /\
   controller.state_of (controller.OnLeaderFwdRequestTimeout request info c) = c /\
   controller.OnAutoRemoveTimeout info c
   = (controller.Returned tt, c,
      [controller.Logger_Warnf
         "Request %s auto-remove timeout expired, removed from the request pool"
         [controller.ArgInfo info]]) /\
   controller.state_of (controller.ProcessMessages sender m c) = c /\
   controller.result_of (controller.ProcessMessages sender m c) = controller.Returned tt) /\
  (controller.N c <> 0 ->
   controller.result_of (controller.OnRequestTimeout request info c)
     = controller.Returned tt /\
   controller.result_of (controller.OnLeaderFwdRequestTimeout request info c)
     = controller.Returned tt) /\
  (controller.N c = 0 ->
   controller.OnRequestTimeout request info c = (controller.Panicked, c, []) /\
   controller.OnLeaderFwdRequestTimeout request info c = (controller.Panicked, c, [])).
Proof.
  unfold_controller. unfold controller.OnAutoRemoveTimeout, controller.emit.
  unfold GoInt.uint64_rem.
  destruct (Z.eqb_spec (controller.N c) 0) as [HN | HN];
    destruct (controller.currViewNumber c mod controller.N c =? controller.ID c);
    destruct (IsViewMessage m); cbn;
    repeat split; intros; try reflexivity; contradiction.
Qed.

End ControllerMore.

Lemma Start_spec_witness :
  controller.leaderToken
    (controller.state_of (@controller.Start GoFloat.amd64 _ 5 1 (configured 1 4)))
  = Some true /\
  controller.result_of (@controller.Start GoFloat.amd64 _ 5 1 (configured 1 0))
  = controller.Panicked.
Proof.
  split.
  - apply (proj1 (@Start_spec GoFloat.amd64 _ 5 1 (configured 1 4))). discriminate.
  - apply (proj2 (@Start_spec GoFloat.amd64 _ 5 1 (configured 1 0))). reflexivity.
Defined.


Lemma leaderToken_only_for_leader_witness :
  controller.leaderToken
    (controller.state_of (controller.changeView 1 10 (node 2 4 2))) = Some false /\
  controller.leaderToken (node 2 4 2) = Some true.
Proof.
  split; [| reflexivity].
  apply (proj2 (proj2 (@leaderToken_only_for_leader GoFloat.amd64 _ 1 10 (node 2 4 2)))).
  reflexivity.
Defined.

Lemma changeView_order_witness :
  controller.trace_of (controller.changeView 5 10 (node 1 4 2))
  = [controller.Logger_Debugf "Aborting current view with number %d"
       [controller.ArgUint64 2];
     controller.View_Abort (controller.currView (node 1 4 2));
     controller.Future_Wait (controller.viewEnd (node 1 4 2));
     controller.Logger_Debugf "Starting view with number %d" [controller.ArgUint64 5];
     controller.View_Start
       {| controller.View_N := 4; controller.LeaderID := 1; controller.SelfID := 1;
          controller.Quorum := 3; controller.Number := 5;
          controller.ProposalSequence := 10 |};
     controller.Batcher_Reset].
Proof.
  apply (@changeView_order (bounded_pool 200) 5 10 (node 1 4 2)); discriminate.
Defined.

Lemma handlers_keep_the_state_witness :
  controller.result_of
    (controller.OnRequestTimeout sample_request sample_info (node 1 4 0))
  = controller.Returned tt /\
  controller.OnLeaderFwdRequestTimeout sample_request sample_info (configured 1 0)
  = (controller.Panicked, configured 1 0, []).
Proof.
  split.
  - apply (proj1 (proj2 (@handlers_keep_the_state (bounded_pool 200)
                           sample_request sample_info 0 None (node 1 4 0)))).
    discriminate.
  - apply (proj2 (proj2 (@handlers_keep_the_state (bounded_pool 200)
                           sample_request sample_info 0 None (configured 1 0)))).
    reflexivity.
Defined.

(** ** Stopping, batches and proposals *)

Ltac unfold_loop :=
  cbv [run_loop.Stop run_loop.stopped run_loop.call_out run_loop.lift
       run_loop.set_ctl run_loop.set_stopChan
       run_loop.status_of run_loop.replica_of run_loop.calls_of
       run_loop.L_bind run_loop.L_ret mbind mret
       controller.relinquishLeaderToken controller.acquireLeaderToken
       controller.modify controller.gets
       run_loop.ctl run_loop.stopChan fst snd app].

Section LoopFacts.

Context `{controller.RequestPool} `{!run_loop.Collaborators}.

Implicit Types r : run_loop.Replica.

Lemma Stop_started r :
  run_loop.stopChan r <> None ->
  run_loop.status_of (run_loop.Stop r) = run_loop.Done tt /\
  run_loop.stopChan (run_loop.replica_of (run_loop.Stop r)) = Some true.
Proof.
  intros Hs. destruct r as [c [[|] |]]; [| | cbn in Hs; congruence].
  - split; reflexivity.
  - unfold_loop. destruct (controller.leaderToken c); split; reflexivity.
Qed.

(** [Stop] panics on a controller that was never started.  On a started
    one the first call closes the stop channel, closes the batcher and
    takes the leader token out of its channel; every later call does
    nothing at all. *)
Theorem Stop_idempotent r :
  let r' := run_loop.replica_of (run_loop.Stop r) in
  (run_loop.stopChan r = None -> run_loop.Stop r = (run_loop.Panic, r, [])) /\
  (run_loop.stopChan r = Some false ->
   run_loop.status_of (run_loop.Stop r) = run_loop.Done tt /\
   run_loop.calls_of (run_loop.Stop r) = [run_loop.Batcher_Close] /\
   run_loop.stopChan r' = Some true /\
   run_loop.stopped r' = (run_loop.Done true, r', []) /\
   controller.leaderToken (run_loop.ctl r')
     = (fun _ => false) <$> controller.leaderToken (run_loop.ctl r)) /\
  (run_loop.stopChan r <> None -> run_loop.Stop r' = (run_loop.Done tt, r', [])).
Proof.
  destruct r as [c s]. cbv zeta. split; [| split].
  - cbn. intros ->. reflexivity.
  - cbn. intros ->. unfold_loop.
    destruct (controller.leaderToken c) eqn:Htok; cbn; rewrite ?Htok;
      repeat split.
  - cbn. intros Hs. destruct s as [[|] |]; [reflexivity | | congruence].
    unfold_loop. destruct (controller.leaderToken c); reflexivity.
Qed.

Lemma getNextBatch_cases (batches : list (list bytes * bool)) r :
  run_loop.stopChan r <> None ->
  match run_loop.status_of (run_loop.getNextBatch batches r) with
  | run_loop.Done requests =>
      (requests = []
       <-> run_loop.stopChan
             (run_loop.replica_of (run_loop.getNextBatch batches r)) = Some true) /\
      (requests <> [] ->
       exists pre post,
         batches = pre ++ (requests, false) :: post /\
         Forall (fun b => b = ([], false)) pre)
  | run_loop.Panic => False
  | run_loop.Waiting => Forall (fun b => b = ([], false)) batches
  end.
Proof.
  revert r. induction batches as [| [requests stop] rest IH]; intros r Hs.
  - cbn. constructor.
  - cbn [run_loop.getNextBatch].
    destruct stop.
    + (* another goroutine stops the controller during the call *)
      destruct (Stop_started r Hs) as [Hdone Hclosed].
      cbv [mbind run_loop.L_bind].
      destruct (run_loop.Stop r) as [[st r1] t1] eqn:HStop.
      unfold run_loop.status_of, run_loop.replica_of in Hdone, Hclosed.
      cbn in Hdone, Hclosed. subst st. destruct r1 as [c1 s1].
      cbn in Hclosed. subst s1.
      unfold_loop. cbn.
      split; [split; reflexivity | congruence].
    + destruct r as [c [[|] |]]; [| | cbn in Hs; congruence].
      * unfold_loop. cbn. split; [split; reflexivity | congruence].
      * destruct requests as [| req requests].
        -- specialize (IH {| run_loop.ctl := c; run_loop.stopChan := Some false |} Hs).
           unfold_loop. cbn.
           unfold run_loop.status_of, run_loop.replica_of in IH.
           destruct (run_loop.getNextBatch rest _) as [[[requests' | |] r1] t1];
             cbn in IH |- *.
           ++ destruct IH as [Hiff Hpre]. split; [exact Hiff |].
              intros Hne. destruct (Hpre Hne) as (pre & post & -> & Hall).
              exists (([], false) :: pre), post. split; [reflexivity |].
              constructor; [reflexivity | exact Hall].
           ++ exact IH.
           ++ constructor; [reflexivity | exact IH].
        -- unfold_loop. cbn. split.
           ++ split; [discriminate | intros [=]].
           ++ intros _. exists [], rest. split; [reflexivity | constructor].
Qed.

(** [getNextBatch] never panics on a started controller.  It returns no
    requests exactly when the controller is stopped, as [propose] relies
    on; a batch that it does return is the first one of the batcher that
    is not empty.  It keeps waiting only as long as the batcher returns
    empty batches and nobody stops the controller. *)
Theorem getNextBatch_spec (batches : list (list bytes * bool)) r :
  run_loop.stopChan r <> None ->
  let x := run_loop.getNextBatch batches r in
  run_loop.status_of x <> run_loop.Panic /\
  (forall requests, run_loop.status_of x = run_loop.Done requests ->
     (requests = [] <-> run_loop.stopChan (run_loop.replica_of x) = Some true) /\
     (requests <> [] ->
      exists pre post,
        batches = pre ++ (requests, false) :: post /\
        Forall (fun b => b = ([], false)) pre)) /\
  (run_loop.status_of x = run_loop.Waiting ->
     Forall (fun b => b = ([], false)) batches).
Proof.
  intros Hs x. subst x.
  pose proof (getNextBatch_cases batches r Hs) as Hc.
  destruct (run_loop.status_of (run_loop.getNextBatch batches r)) as [requests | |].
  - split; [discriminate |].
    split; [intros requests' [= <-]; exact Hc | discriminate].
  - destruct Hc.
  - split; [discriminate |].
    split; [discriminate | intros _; exact Hc].
Qed.


#[local] Existing Instance run_loop.L_bind.
#[local] Existing Instance run_loop.L_ret.

Lemma bind_unfold {A B : Type} (m : run_loop.L A) (f : A -> run_loop.L B) r :
  (m ≫= f) r
  = match m r with
    | (run_loop.Done a, r1, t1) =>
        let '(o, r2, t2) := f a r1 in (o, r2, t1 ++ t2)
    | (run_loop.Panic, r1, t1) => (run_loop.Panic, r1, t1)
    | (run_loop.Waiting, r1, t1) => (run_loop.Waiting, r1, t1)
    end.
Proof. reflexivity. Qed.

Lemma preserves_bind {A B : Type} (P : run_loop.Replica -> Prop)
    (m : run_loop.L A) (f : A -> run_loop.L B) :
  run_facts.preserves P m -> (forall a, run_facts.preserves P (f a)) ->
  run_facts.preserves P (m ≫= f).
Proof.
  intros Hm Hf r Hr. rewrite bind_unfold.
  specialize (Hm r Hr). unfold run_loop.replica_of in *.
  destruct (m r) as [[[a | |] r1] t1]; cbn in Hm |- *; try exact Hm.
  specialize (Hf a r1 Hm). unfold run_loop.replica_of in Hf.
  destruct (f a r1) as [[o r2] t2]. exact Hf.
Qed.

Lemma calls_in_bind {A B : Type} (Q : run_loop.call -> Prop)
    (m : run_loop.L A) (f : A -> run_loop.L B) :
  run_facts.calls_in Q m -> (forall a, run_facts.calls_in Q (f a)) ->
  run_facts.calls_in Q (m ≫= f).
Proof.
  intros Hm Hf r. rewrite bind_unfold.
  specialize (Hm r). unfold run_loop.calls_of in *.
  destruct (m r) as [[[a | |] r1] t1]; cbn in Hm |- *; try exact Hm.
  specialize (Hf a r1). unfold run_loop.calls_of in Hf.
  destruct (f a r1) as [[o r2] t2]. cbn in *.
  apply Forall_app. split; assumption.
Qed.

Lemma preserves_ret {A : Type} (P : run_loop.Replica -> Prop) (a : A) :
  run_facts.preserves P (mret a).
Proof. intros r Hr. exact Hr. Qed.

Lemma calls_in_ret {A : Type} (Q : run_loop.call -> Prop) (a : A) :
  run_facts.calls_in Q (mret a).
Proof. intros r. constructor. Qed.

Lemma preserves_call_out (P : run_loop.Replica -> Prop) (e : run_loop.call) :
  run_facts.preserves P (run_loop.call_out e).
Proof. intros r Hr. exact Hr. Qed.

Lemma calls_in_call_out (Q : run_loop.call -> Prop) (e : run_loop.call) :
  Q e -> run_facts.calls_in Q (run_loop.call_out e).
Proof. intros He r. repeat constructor. exact He. Qed.

Lemma preserves_stopped (P : run_loop.Replica -> Prop) :
  run_facts.preserves P run_loop.stopped.
Proof. intros r Hr. exact Hr. Qed.

Lemma calls_in_stopped (Q : run_loop.call -> Prop) :
  run_facts.calls_in Q run_loop.stopped.
Proof. intros r. constructor. Qed.

(** A method of the controller keeps a property of the replica that it
    keeps as a property of the controller and the stop channel. *)
Lemma preserves_lift {A : Type} (P : run_loop.Replica -> Prop) (m : controller.M A) :
  (forall c s, P {| run_loop.ctl := c; run_loop.stopChan := s |} ->
               P {| run_loop.ctl := controller.state_of (m c); run_loop.stopChan := s |}) ->
  run_facts.preserves P (run_loop.lift m).
Proof.
  intros Hm [c s] Hr. specialize (Hm c s Hr).
  unfold run_loop.lift, run_loop.replica_of, controller.state_of in *. cbn in *.
  destruct (m c) as [[[a |] c1] t1]; exact Hm.
Qed.

Lemma calls_in_lift {A : Type} (Q : run_loop.call -> Prop) (m : controller.M A) :
  (forall c, Forall (fun e => Q (run_loop.Controller_call e)) (controller.trace_of (m c))) ->
  run_facts.calls_in Q (run_loop.lift m).
Proof.
  intros Hm [c s]. specialize (Hm c).
  unfold run_loop.lift, run_loop.calls_of, controller.trace_of in *. cbn in *.
  destruct (m c) as [[[a |] c1] t1]; cbn in *; apply Forall_fmap; exact Hm.
Qed.

Lemma calls_in_Stop : run_facts.calls_in run_facts.batcher_call run_loop.Stop.
Proof.
  intros [c [[|] |]]; unfold run_loop.Stop; cbn [run_loop.stopChan];
    [constructor | | constructor].
  apply calls_in_bind.
  - apply calls_in_call_out. exact I.
  - intros _. apply calls_in_lift. intros c0. constructor.
Qed.

Lemma getNextBatch_calls (batches : list (list bytes * bool)) :
  run_facts.calls_in run_facts.batcher_call (run_loop.getNextBatch batches).
Proof.
  induction batches as [| [requests stop] rest IH].
  - intros r. constructor.
  - cbn [run_loop.getNextBatch].
    apply calls_in_bind.
    { destruct stop; [apply calls_in_Stop | apply calls_in_ret]. }
    intros _. apply calls_in_bind; [apply calls_in_call_out; exact I |].
    intros _. apply calls_in_bind; [apply calls_in_stopped |].
    intros [|]; [apply calls_in_ret |].
    destruct requests; [exact IH | apply calls_in_ret].
Qed.


Lemma propose_unfold (batches : list (list bytes * bool)) (metadata : bytes) r :
  run_loop.propose batches metadata r
  = match run_loop.getNextBatch batches r with
    | (run_loop.Done [], r1, t1) => (run_loop.Done tt, r1, t1 ++ [])
    | (run_loop.Done (req :: reqs), r1, t1) =>
        let proposal := fst (run_loop.AssembleProposal metadata (req :: reqs)) in
        let remainder := snd (run_loop.AssembleProposal metadata (req :: reqs)) in
        (run_loop.Done tt, r1,
         t1 ++ [run_loop.View_GetMetadata metadata;
                run_loop.Assembler_AssembleProposal metadata (req :: reqs)]
            ++ match remainder with
               | [] => []
               | _ :: _ => [run_loop.Batcher_BatchRemainder remainder]
               end
            ++ [run_loop.Logger_Debugf_proposal "Leader proposing proposal: %v" proposal;
                run_loop.View_Propose (controller.currView (run_loop.ctl r1)) proposal])
    | (run_loop.Panic, r1, t1) => (run_loop.Panic, r1, t1)
    | (run_loop.Waiting, r1, t1) => (run_loop.Waiting, r1, t1)
    end.
Proof.
  unfold run_loop.propose. rewrite bind_unfold.
  destruct (run_loop.getNextBatch batches r) as [[[[| req reqs] | |] r1] t1];
    try reflexivity.
  destruct r1 as [c1 s1].
  destruct (run_loop.AssembleProposal metadata (req :: reqs)) as [proposal [| x rem]];
    reflexivity.
Qed.


Lemma preserves_Stop (P : run_loop.Replica -> Prop) :
  (forall c s, P {| run_loop.ctl := c; run_loop.stopChan := s |} ->
     P {| run_loop.ctl := controller.state_of (controller.relinquishLeaderToken c);
          run_loop.stopChan := Some true |}) ->
  run_facts.preserves P run_loop.Stop.
Proof.
  intros HP [c [[|] |]] Hr; unfold run_loop.Stop; cbn [run_loop.stopChan];
    [exact Hr | | exact Hr].
  specialize (HP c (Some false) Hr).
  unfold_loop. unfold controller.state_of in HP. cbn in HP |- *.
  destruct (controller.leaderToken c); exact HP.
Qed.

Lemma preserves_getNextBatch (P : run_loop.Replica -> Prop)
    (batches : list (list bytes * bool)) :
  (forall c s, P {| run_loop.ctl := c; run_loop.stopChan := s |} ->
     P {| run_loop.ctl := controller.state_of (controller.relinquishLeaderToken c);
          run_loop.stopChan := Some true |}) ->
  run_facts.preserves P (run_loop.getNextBatch batches).
Proof.
  intros HP. induction batches as [| [requests stop] rest IH].
  - intros r Hr. exact Hr.
  - cbn [run_loop.getNextBatch].
    apply preserves_bind.
    { destruct stop; [apply preserves_Stop; exact HP | apply preserves_ret]. }
    intros _. apply preserves_bind; [apply preserves_call_out |].
    intros _. apply preserves_bind; [apply preserves_stopped |].
    intros [|]; [apply preserves_ret |].
    destruct requests; [exact IH | apply preserves_ret].
Qed.

(** [propose] hands the view at most one proposal.  It does so only while
    the controller is not stopped, and the proposal is the one that the
    assembler made from a batch of the batcher that is not empty. *)
Theorem propose_spec (batches : list (list bytes * bool)) (metadata : bytes) r :
  run_loop.stopChan r <> None ->
  let y := run_loop.propose batches metadata r in
  (forall v p, In (run_loop.View_Propose v p) (run_loop.calls_of y) ->
     run_loop.status_of y = run_loop.Done tt /\
     run_loop.stopChan (run_loop.replica_of y) = Some false /\
     v = controller.currView (run_loop.ctl r) /\
     exists requests,
       requests <> [] /\ In (requests, false) batches /\
       p = fst (run_loop.AssembleProposal metadata requests)) /\
  (length (List.filter run_facts.is_View_Propose (run_loop.calls_of y)) <= 1)%nat.
Proof.
  intros Hs y. subst y. rewrite propose_unfold.
  pose proof (getNextBatch_cases batches r Hs) as Hcases.
  pose proof (getNextBatch_calls batches r) as Hcalls.
  pose proof (preserves_getNextBatch
                (fun r' => controller.currView (run_loop.ctl r')
                           = controller.currView (run_loop.ctl r)
                           /\ run_loop.stopChan r' <> None) batches) as Hkeep.
  specialize (Hkeep ltac:(intros c s [Hv _]; split; [| discriminate];
                          unfold controller.state_of, controller.relinquishLeaderToken,
                            controller.modify; cbn in *;
                          destruct (controller.leaderToken c); exact Hv)
                    r (conj eq_refl Hs)).
  unfold run_loop.status_of, run_loop.replica_of, run_loop.calls_of in *.
  assert (Hnone : forall t, Forall run_facts.batcher_call t ->
            List.filter run_facts.is_View_Propose t = [] /\
            forall v p, ~ In (run_loop.View_Propose v p) t).
  { intros t Ht. induction Ht as [| e t He Ht IH]; [split; [reflexivity | intros v p []] |].
    destruct IH as [IH1 IH2]. split.
    - cbn. destruct e; cbn in He |- *; try contradiction; exact IH1.
    - intros v p [-> | Hin]; [exact He | exact (IH2 v p Hin)]. }
  destruct (run_loop.getNextBatch batches r) as [[[[| req reqs] | |] r1] t1];
    cbn in Hcases, Hcalls, Hkeep |- *;
    destruct (Hnone t1 Hcalls) as [Hfilter Hnotin].
  - rewrite app_nil_r, Hfilter. split; [| cbn; lia].
    intros v p Hin. destruct (Hnotin v p Hin).
  - destruct Hcases as [Hiff Hpre]. destruct Hkeep as [Hview Hstarted].
    destruct (Hpre ltac:(discriminate)) as (pre & post & -> & _).
    split.
    + intros v p Hin. apply in_app_or in Hin as [Hin | Hin]; [destruct (Hnotin v p Hin) |].
      assert (Hvp : v = controller.currView (run_loop.ctl r1) /\
                    p = fst (run_loop.AssembleProposal metadata (req :: reqs))).
      { cbn in Hin.
        destruct (snd (run_loop.AssembleProposal metadata (req :: reqs)));
          cbn in Hin;
          repeat (destruct Hin as [Hin | Hin]; [try discriminate |]);
          try (injection Hin as <- <-; split; reflexivity);
          destruct Hin. }
      destruct Hvp as [-> ->]. split; [reflexivity |]. split.
      * destruct (run_loop.stopChan r1) as [[|] |]; [| reflexivity | congruence].
        discriminate (proj2 Hiff eq_refl).
      * split; [exact Hview |]. exists (req :: reqs).
        split; [discriminate |]. split; [| reflexivity].
        apply in_or_app. right. left. reflexivity.
    + rewrite !List.filter_app, Hfilter. cbn.
      destruct (snd (run_loop.AssembleProposal metadata (req :: reqs))); cbn; lia.
  - rewrite Hfilter. split; [| cbn; lia]. intros v p Hin. destruct (Hnotin v p Hin).
  - rewrite Hfilter. split; [| cbn; lia]. intros v p Hin. destruct (Hnotin v p Hin).
Qed.


(** ** Pruning after a change of the verification sequence *)

Lemma revalidate_kept (requests : list bytes) :
  fst (run_loop.revalidate requests) = List.filter run_facts.verifies requests.
Proof.
  induction requests as [| req rest IH]; [reflexivity |].
  cbn [run_loop.revalidate List.filter]. unfold run_facts.verifies at 1.
  destruct (run_loop.VerifyRequest req) as [reqInf [e |]];
    destruct (run_loop.revalidate rest) as [kept warnings]; cbn in *;
    rewrite IH; reflexivity.
Qed.

Lemma revalidate_warnings (requests : list bytes) :
  snd (run_loop.revalidate requests) = omap run_facts.revocation_warning requests.
Proof.
  induction requests as [| req rest IH]; [reflexivity |].
  cbn [run_loop.revalidate omap list_omap]. unfold run_facts.revocation_warning at 1.
  destruct (run_loop.VerifyRequest req) as [reqInf [e |]];
    destruct (run_loop.revalidate rest) as [kept warnings]; cbn in *;
    rewrite IH; reflexivity.
Qed.

Lemma revocation_warning_count (requests : list bytes) :
  length (omap run_facts.revocation_warning requests)
  = length (List.filter (fun req => negb (run_facts.verifies req)) requests).
Proof.
  induction requests as [| req rest IH]; [reflexivity |].
  cbn [omap list_omap List.filter].
  unfold run_facts.revocation_warning at 1, run_facts.verifies at 1.
  destruct (run_loop.VerifyRequest req) as [reqInf [e |]]; cbn; rewrite IH; reflexivity.
Qed.

(** While the verifier reports the sequence that the controller has
    cached, [maybePruneRevokedRequests] touches nothing.  When the
    sequence has changed it caches the new one, prunes the pool with
    [VerifyRequest], pops the remainder of the batcher, writes one
    warning for each request of the remainder that no longer verifies
    (in their order, each naming the request and the error of the
    verifier), and gives the batcher back, in one call, the requests of
    the remainder that still verify, in their order; it makes no other
    call.  A second call under the same sequence touches nothing. *)
Theorem maybePruneRevokedRequests_spec (newVerSqn : Z) (popped : list bytes) r :
  let x := run_loop.maybePruneRevokedRequests newVerSqn popped r in
  let c := run_loop.ctl r in
  run_loop.status_of x = run_loop.Done tt /\
  (newVerSqn = controller.verificationSequence c ->
   run_loop.replica_of x = r /\
   run_loop.calls_of x = [run_loop.Verifier_VerificationSequence newVerSqn]) /\
  (newVerSqn <> controller.verificationSequence c ->
   run_loop.replica_of x
   = {| run_loop.ctl :=
          controller.set_RequestPool_state
            (run_loop.Prune (controller.RequestPool_state c)
               (fun req => snd (run_loop.VerifyRequest req)))
            (run_loop.set_verificationSequence newVerSqn c);
        run_loop.stopChan := run_loop.stopChan r |} /\
   run_loop.calls_of x
   = [run_loop.Verifier_VerificationSequence newVerSqn;
      run_loop.Logger_Infof "Verification sequence changed: %d --> %d"
        [controller.ArgUint64 (controller.verificationSequence c);
         controller.ArgUint64 newVerSqn];
      run_loop.RequestPool_Prune;
      run_loop.Batcher_PopRemainder popped]
     ++ omap run_facts.revocation_warning popped
     ++ [run_loop.Batcher_BatchRemainder (List.filter run_facts.verifies popped)] /\
   length (omap run_facts.revocation_warning popped)
   = length (List.filter (fun req => negb (run_facts.verifies req)) popped)) /\
  (forall popped',
     run_loop.maybePruneRevokedRequests newVerSqn popped' (run_loop.replica_of x)
     = (run_loop.Done tt, run_loop.replica_of x,
        [run_loop.Verifier_VerificationSequence newVerSqn])).
Proof.
  destruct r as [c s]. cbv zeta. cbn [run_loop.ctl run_loop.stopChan].
  unfold run_loop.maybePruneRevokedRequests.
  rewrite revalidate_kept, revalidate_warnings.
  pose proof (revocation_warning_count popped) as Hwarn.
  remember (omap run_facts.revocation_warning popped) as warnings eqn:Hw. clear Hw.
  remember (List.filter run_facts.verifies popped) as kept eqn:Hk. clear Hk.
  unfold_loop. cbn.
  destruct (Z.eqb_spec newVerSqn (controller.verificationSequence c)) as [Heq | Hne].
  - cbn. split; [reflexivity |]. split; [intros _; split; reflexivity |].
    split; [intros Hc; contradiction |].
    intros popped'. cbn. rewrite Heq, Z.eqb_refl. reflexivity.
  - cbn. split; [reflexivity |]. split; [intros Hc; contradiction |].
    split.
    + intros _. split; [reflexivity |]. split; [reflexivity | exact Hwarn].
    + intros popped'. cbn. rewrite Z.eqb_refl. reflexivity.
Qed.


(** ** What the run loop keeps *)

Section RunKeeps.

(** A property of the replica that does not look at the pool, the cached
    verification sequence or the stop channel, that survives the loss of
    the leader token and a view change, and that survives the gain of the
    token on the leader of the current view. *)
Variable P : run_loop.Replica -> Prop.

Hypothesis P_pool : forall c s p,
  P {| run_loop.ctl := c; run_loop.stopChan := s |} ->
  P {| run_loop.ctl := controller.set_RequestPool_state p c; run_loop.stopChan := s |}.
Hypothesis P_sequence : forall c s v,
  P {| run_loop.ctl := c; run_loop.stopChan := s |} ->
  P {| run_loop.ctl := run_loop.set_verificationSequence v c; run_loop.stopChan := s |}.
Hypothesis P_stop : forall c s s',
  P {| run_loop.ctl := c; run_loop.stopChan := s |} ->
  P {| run_loop.ctl := c; run_loop.stopChan := s' |}.
Hypothesis P_drop : forall c s,
  P {| run_loop.ctl := c; run_loop.stopChan := s |} ->
  P {| run_loop.ctl := controller.set_leaderToken (Some false) c; run_loop.stopChan := s |}.
Hypothesis P_take : forall c s,
  P {| run_loop.ctl := c; run_loop.stopChan := s |} ->
  controller.N c <> 0 ->
  controller.currViewNumber c mod controller.N c = controller.ID c ->
  P {| run_loop.ctl := controller.set_leaderToken (Some true) c; run_loop.stopChan := s |}.
Hypothesis P_changeView : forall c s v q,
  P {| run_loop.ctl := c; run_loop.stopChan := s |} ->
  P {| run_loop.ctl := controller.state_of (controller.changeView v q c);
       run_loop.stopChan := s |}.

Lemma keeps_relinquish c s :
  P {| run_loop.ctl := c; run_loop.stopChan := s |} ->
  P {| run_loop.ctl := controller.state_of (controller.relinquishLeaderToken c);
       run_loop.stopChan := Some true |}.
Proof.
  intros Hc. apply (P_stop _ s).
  unfold controller.state_of, controller.relinquishLeaderToken, controller.modify.
  cbn. destruct (controller.leaderToken c); [apply P_drop |]; exact Hc.
Qed.

Lemma keeps_removeDeliveredFromPool (requests : list controller.RequestInfo) :
  run_facts.preserves P (run_loop.removeDeliveredFromPool requests).
Proof.
  induction requests as [| reqInfo rest IH]; [apply preserves_ret |].
  cbn [run_loop.removeDeliveredFromPool].
  apply preserves_bind.
  - intros [c s] Hr. unfold run_loop.replica_of. cbn.
    destruct (run_loop.RemoveRequest _ _) as [err p]. cbn.
    apply P_pool. exact Hr.
  - intros err. apply preserves_bind; [| intros _; exact IH].
    destruct err; [apply preserves_call_out | apply preserves_ret].
Qed.

Lemma keeps_maybePruneRevokedRequests (newVerSqn : Z) (popped : list bytes) :
  run_facts.preserves P (run_loop.maybePruneRevokedRequests newVerSqn popped).
Proof.
  unfold run_loop.maybePruneRevokedRequests.
  apply preserves_bind; [apply preserves_lift; intros c s Hc; exact Hc |].
  intros old. apply preserves_bind; [apply preserves_call_out |].
  intros _. destruct (newVerSqn =? old); [apply preserves_ret |].
  apply preserves_bind; [apply preserves_lift; intros c s Hc; apply P_sequence; exact Hc |].
  intros _. apply preserves_bind; [apply preserves_call_out |].
  intros _. apply preserves_bind; [apply preserves_lift; intros c s Hc; apply P_pool; exact Hc |].
  intros _. apply preserves_bind; [apply preserves_call_out |].
  intros _. apply preserves_bind; [apply preserves_call_out |].
  intros _. apply preserves_bind; [intros r Hr; exact Hr |].
  intros _. apply preserves_call_out.
Qed.

Lemma keeps_reacquire :
  run_facts.preserves P
    ('(iAm, _) ← run_loop.lift controller.iAmTheLeader;
     (if (iAm : bool) then run_loop.lift controller.acquireLeaderToken else mret tt);;
     mret false).
Proof.
  intros [c s] Hr. rewrite bind_unfold.
  unfold run_loop.lift at 1. cbn [run_loop.ctl].
  destruct (controller.iAmTheLeader c) as [[[[iAm leader] |] c1] t1] eqn:Hl.
  - assert (Hres : controller.result_of (controller.iAmTheLeader c)
                   = controller.Returned (iAm, leader))
      by (rewrite Hl; reflexivity).
    apply iAmTheLeader_inv in Hres as (HN & Hleader & HiAm & Heq).
    rewrite Hl in Heq. injection Heq as -> ->.
    destruct iAm.
    + symmetry in HiAm. apply Z.eqb_eq in HiAm.
      unfold_loop. cbn.
      destruct (controller.leaderToken c) eqn:Htok; cbn; [| exact Hr].
      apply P_take; [exact Hr | exact HN | congruence].
    + exact Hr.
  - unfold run_loop.replica_of. cbn.
    assert (Hc1 : c1 = c).
    { revert Hl. unfold_controller. unfold GoInt.uint64_rem.
      destruct (controller.N c =? 0); cbn; congruence. }
    subst c1. exact Hr.
Qed.

Lemma keeps_propose (batches : list (list bytes * bool)) (metadata : bytes) :
  run_facts.preserves P (run_loop.propose batches metadata).
Proof.
  intros r Hr. rewrite propose_unfold.
  pose proof (preserves_getNextBatch P batches keeps_relinquish r Hr) as Hx.
  unfold run_loop.replica_of in *.
  destruct (run_loop.getNextBatch batches r) as [[[[| req reqs] | |] r1] t1]; exact Hx.
Qed.

Lemma keeps_run_step (ev : run_loop.loopEvent) :
  run_facts.preserves P (run_loop.run_step ev).
Proof.
  destruct ev as [d newVerSqn popped | newView | | | batches metadata];
    cbn [run_loop.run_step].
  - apply preserves_bind; [apply preserves_call_out |].
    intros _. apply preserves_bind; [apply preserves_lift; intros c s Hc; exact Hc |].
    intros id. apply preserves_bind; [apply preserves_call_out |].
    intros _. apply preserves_bind; [apply keeps_removeDeliveredFromPool |].
    intros _. apply preserves_bind; [apply preserves_call_out |].
    intros _. apply preserves_bind; [apply keeps_maybePruneRevokedRequests |].
    intros _. apply keeps_reacquire.
  - apply preserves_bind; [| intros _; apply preserves_ret].
    apply preserves_lift. intros c s Hc. apply P_changeView. exact Hc.
  - apply preserves_bind; [| intros _; apply preserves_ret].
    apply preserves_Stop. exact keeps_relinquish.
  - apply preserves_stopped.
  - apply preserves_bind; [apply preserves_lift; intros c s Hc; exact Hc |].
    intros [[|] |]; try apply preserves_ret.
    apply preserves_bind; [apply preserves_lift; intros c s Hc; apply P_drop; exact Hc |].
    intros _. apply preserves_bind; [apply keeps_propose | intros _; apply preserves_ret].
Qed.

Lemma keeps_exiting : run_facts.preserves P run_loop.exiting.
Proof.
  unfold run_loop.exiting.
  apply preserves_bind; [apply preserves_call_out |].
  intros _. apply preserves_bind; [apply preserves_lift; intros c s Hc; exact Hc |].
  intros v. apply preserves_bind; [apply preserves_call_out |].
  intros _. apply preserves_bind; [apply preserves_lift; intros c s Hc; exact Hc |].
  intros [f |]; [apply preserves_call_out | intros r Hr; exact Hr].
Qed.

Lemma keeps_run (schedule : list run_loop.loopEvent) :
  run_facts.preserves P (run_loop.run schedule).
Proof.
  induction schedule as [| ev rest IH]; intros r Hr; [exact Hr |].
  cbn [run_loop.run].
  pose proof (keeps_run_step ev r Hr) as Hstep.
  unfold run_loop.replica_of in *.
  destruct (run_loop.run_step ev r) as [[[[|] | |] r1] t1]; cbn in Hstep |- *.
  - pose proof (keeps_exiting r1 Hstep) as He. unfold run_loop.replica_of in He.
    destruct (run_loop.exiting r1) as [[o r2] t2]. exact He.
  - pose proof (IH r1 Hstep) as Hrun. unfold run_loop.replica_of in Hrun.
    destruct (run_loop.run rest r1) as [[o r2] t2]. exact Hrun.
  - pose proof (keeps_exiting r1 Hstep) as He. unfold run_loop.replica_of in He.
    destruct (run_loop.exiting r1) as [[o r2] t2]. exact He.
  - exact Hstep.
Qed.

End RunKeeps.


(** Whatever the loop meets, and however [run] ends, the controller keeps
    its identity and its cluster size, and its view number does not go
    down. *)
Theorem run_never_lowers_view (schedule : list run_loop.loopEvent) r :
  run_facts.not_behind (run_loop.ctl r)
    (run_loop.replica_of (run_loop.run schedule r)).
Proof.
  apply (keeps_run (run_facts.not_behind (run_loop.ctl r))).
  - intros c s p Hc. exact Hc.
  - intros c s v Hc. exact Hc.
  - intros c s s' Hc. exact Hc.
  - intros c s Hc. exact Hc.
  - intros c s Hc _ _. exact Hc.
  - intros c s v q (HN & HID & Hle). unfold run_facts.not_behind.
    cbn [run_loop.ctl] in *.
    destruct (changeView_frame v q c) as [HN' HID'].
    pose proof (changeView_never_lowers c v q) as Hstep.
    split; [congruence |]. split; [congruence | lia].
  - unfold run_facts.not_behind. repeat split; lia.
Qed.

(** If the leader token is held only by the leader when the loop starts,
    as it is after [Start], then it is so whenever the loop has made a
    turn and when [run] ends: a node that does not lead the current view
    never holds the token. *)
Theorem run_leaderToken_only_for_leader (schedule : list run_loop.loopEvent) r :
  LeaderToken.only_for_leader (run_loop.ctl r) ->
  LeaderToken.only_for_leader
    (run_loop.ctl (run_loop.replica_of (run_loop.run schedule r))).
Proof.
  intros Hr.
  apply (keeps_run (fun r' => LeaderToken.only_for_leader (run_loop.ctl r'))).
  - intros c s p Hc. exact Hc.
  - intros c s v Hc. exact Hc.
  - intros c s s' Hc. exact Hc.
  - intros c s Hc. cbn. intros [=].
  - intros c s Hc HN Hid. cbn. intros _. split; assumption.
  - intros c s v q Hc. cbn. apply changeView_token.
  - exact Hr.
Qed.

Lemma bind_never_true {A : Type} (m : run_loop.L A) (f : A -> run_loop.L bool) r :
  (forall a r1, run_loop.status_of (f a r1) <> run_loop.Done true) ->
  run_loop.status_of ((m ≫= f) r) <> run_loop.Done true.
Proof.
  intros Hf. rewrite bind_unfold.
  destruct (m r) as [[[a | |] r1] t1]; try discriminate.
  specialize (Hf a r1). unfold run_loop.status_of in *.
  destruct (f a r1) as [[o r2] t2]. exact Hf.
Qed.

Lemma run_step_leaves (ev : run_loop.loopEvent) r r1 t1 :
  run_loop.run_step ev r = (run_loop.Done true, r1, t1) ->
  ev = run_loop.stopChan_ready /\ r1 = r /\ t1 = [] /\
  run_loop.stopChan r = Some true.
Proof.
  intros Hstep.
  assert (Hst : run_loop.status_of (run_loop.run_step ev r) = run_loop.Done true)
    by (rewrite Hstep; reflexivity).
  destruct ev as [d newVerSqn popped | newView | | | batches metadata];
    cbn [run_loop.run_step] in Hst, Hstep.
  - exfalso. revert Hst.
    repeat (apply bind_never_true; intros ? ?).
    match goal with x : (bool * Z)%type |- _ => destruct x as [iAm leader] end.
    cbv beta iota.
    apply bind_never_true. intros ? ?. discriminate.
  - exfalso. revert Hst. apply bind_never_true. intros ? ?. discriminate.
  - exfalso. revert Hst. apply bind_never_true. intros ? ?. discriminate.
  - unfold run_loop.stopped in Hstep.
    destruct (run_loop.stopChan r) as [[|] |] eqn:Hs;
      inversion Hstep; subst. repeat split.
  - exfalso. revert Hst. apply bind_never_true. intros [[|] |] ?; try discriminate.
    repeat (apply bind_never_true; intros ? ?). discriminate.
Qed.

(** [run] returns only once the stop channel is closed, and before it
    returns it aborts the current view and waits for that view to end. *)
Theorem run_exits_after_abort (schedule : list run_loop.loopEvent) r :
  run_loop.status_of (run_loop.run schedule r) = run_loop.Done tt ->
  let r' := run_loop.replica_of (run_loop.run schedule r) in
  run_loop.stopChan r' = Some true /\
  exists before,
    run_loop.calls_of (run_loop.run schedule r)
    = before
      ++ [run_loop.Logger_Infof "Exiting" [];
          run_loop.Controller_call
            (controller.View_Abort (controller.currView (run_loop.ctl r')));
          run_loop.Controller_call
            (controller.Future_Wait (controller.viewEnd (run_loop.ctl r')))].
Proof.
  revert r. induction schedule as [| ev rest IH]; intros r; [discriminate |].
  cbn [run_loop.run].
  destruct (run_loop.run_step ev r) as [[[[|] | |] r1] t1] eqn:Hstep.
  - apply run_step_leaves in Hstep as (_ & -> & -> & Hclosed).
    destruct r as [c s]. cbn in Hclosed. subst s.
    unfold run_loop.exiting. unfold_loop. cbn.
    destruct (controller.viewEnd c) as [f |] eqn:Hend; cbn; [| discriminate].
    intros _. rewrite Hend. split; [reflexivity |]. exists []. reflexivity.
  - specialize (IH r1).
    unfold run_loop.status_of, run_loop.replica_of, run_loop.calls_of in *.
    destruct (run_loop.run rest r1) as [[o r2] t2]. cbn in *.
    intros Ho. destruct (IH Ho) as [Hclosed [before Hcalls]].
    split; [exact Hclosed |]. exists (t1 ++ before).
    rewrite Hcalls, app_assoc. reflexivity.
  - unfold run_loop.status_of. destruct (run_loop.exiting r1) as [[o r2] t2].
    discriminate.
  - discriminate.
Qed.


Lemma removals_requests (p : controller.pool) (requests : list controller.RequestInfo) :
  (fst (run_facts.removals p requests)).*1 = requests.
Proof.
  revert p. induction requests as [| reqInfo rest IH]; intros p; [reflexivity |].
  cbn [run_facts.removals].
  destruct (run_loop.RemoveRequest p reqInfo) as [err p1].
  specialize (IH p1). destruct (run_facts.removals p1 rest) as [answers p2].
  cbn in *. rewrite IH. reflexivity.
Qed.

Lemma removal_calls_requests
    (answers : list (controller.RequestInfo * option controller.error)) :
  omap run_facts.removed_request (answers ≫= run_facts.removal_calls) = answers.*1.
Proof.
  induction answers as [| [reqInfo [e |]] rest IH]; [reflexivity | |];
    cbn in *; rewrite IH; reflexivity.
Qed.

Lemma removeDeliveredFromPool_unfold (requests : list controller.RequestInfo)
    (c : controller.Controller) (s : option bool) :
  run_loop.removeDeliveredFromPool requests {| run_loop.ctl := c; run_loop.stopChan := s |}
  = (run_loop.Done tt,
     {| run_loop.ctl :=
          controller.set_RequestPool_state
            (snd (run_facts.removals (controller.RequestPool_state c) requests)) c;
        run_loop.stopChan := s |},
     fst (run_facts.removals (controller.RequestPool_state c) requests)
       ≫= run_facts.removal_calls).
Proof.
  revert c. induction requests as [| reqInfo rest IH]; intros c.
  - destruct c. reflexivity.
  - cbn [run_loop.removeDeliveredFromPool run_facts.removals]. rewrite bind_unfold.
    cbn [run_loop.ctl].
    destruct (run_loop.RemoveRequest (controller.RequestPool_state c) reqInfo)
      as [err p1] eqn:Hrm.
    cbn iota beta. rewrite bind_unfold.
    unfold run_loop.set_ctl. cbn [run_loop.ctl run_loop.stopChan].
    specialize (IH (controller.set_RequestPool_state p1 c)).
    cbn [controller.RequestPool_state controller.set_RequestPool_state] in IH.
    destruct (run_facts.removals p1 rest) as [answers p2].
    cbn [fst snd] in *.
    destruct err as [e |]; cbn [run_loop.call_out mret run_loop.L_ret];
      rewrite IH; reflexivity.
Qed.

(** [removeDeliveredFromPool] always returns.  It asks the pool to remove
    every request of the decision, once each and in the order of the
    decision, each removal on the pool that the one before left.  A
    removal that the pool answers with an error is followed by one
    warning that names the request and the error, and does not keep the
    later removals from being made; a removal that succeeds is followed
    by nothing.  There is no other call, and of the replica nothing but
    the pool changes. *)
Theorem removeDeliveredFromPool_spec (requests : list controller.RequestInfo) r :
  let x := run_loop.removeDeliveredFromPool requests r in
  let answers :=
    fst (run_facts.removals (controller.RequestPool_state (run_loop.ctl r)) requests) in
  let remaining :=
    snd (run_facts.removals (controller.RequestPool_state (run_loop.ctl r)) requests) in
  run_loop.status_of x = run_loop.Done tt /\
  run_loop.replica_of x
  = {| run_loop.ctl := controller.set_RequestPool_state remaining (run_loop.ctl r);
       run_loop.stopChan := run_loop.stopChan r |} /\
  run_loop.calls_of x = answers ≫= run_facts.removal_calls /\
  answers.*1 = requests /\
  omap run_facts.removed_request (run_loop.calls_of x) = requests.
Proof.
  cbv zeta. destruct r as [c s]. cbn [run_loop.ctl run_loop.stopChan].
  rewrite removeDeliveredFromPool_unfold.
  unfold run_loop.status_of, run_loop.replica_of, run_loop.calls_of. cbn [fst snd].
  split; [reflexivity |]. split; [reflexivity |]. split; [reflexivity |].
  split; [apply removals_requests |].
  rewrite removal_calls_requests. apply removals_requests.
Qed.

End LoopFacts.

(** ** The loop at work *)

Lemma Stop_idempotent_witness :
  run_loop.Stop (unstarted_replica 2 4 []) = (run_loop.Panic, unstarted_replica 2 4 [], []) /\
  run_loop.calls_of (run_loop.Stop (replica 2 4 2 [])) = [run_loop.Batcher_Close] /\
  run_loop.Stop (run_loop.replica_of (run_loop.Stop (replica 2 4 2 [])))
  = (run_loop.Done tt, run_loop.replica_of (run_loop.Stop (replica 2 4 2 [])), []).
Proof.
  split; [| split].
  - apply (proj1 (Stop_idempotent (unstarted_replica 2 4 []))). reflexivity.
  - apply (proj1 (proj2 (Stop_idempotent (replica 2 4 2 [])))). reflexivity.
  - apply (proj2 (proj2 (Stop_idempotent (replica 2 4 2 [])))). discriminate.
Defined.

Lemma getNextBatch_spec_witness :
  run_loop.status_of
    (run_loop.getNextBatch [([], false); ([sample_request], false)] (replica 2 4 2 []))
  <> run_loop.Panic /\
  run_loop.stopChan
    (run_loop.replica_of (run_loop.getNextBatch [([sample_request], true)]
                            (replica 2 4 2 [])))
  = Some true.
Proof.
  split.
  - apply (getNextBatch_spec [([], false); ([sample_request], false)] (replica 2 4 2 [])).
    discriminate.
  - destruct (getNextBatch_spec [([sample_request], true)] (replica 2 4 2 [])
                ltac:(discriminate)) as (_ & Hdone & _).
    apply (Hdone []); reflexivity.
Defined.

Lemma propose_spec_witness :
  run_loop.stopChan
    (run_loop.replica_of
       (@run_loop.propose _ sample_collaborators
          [([], false); ([sample_request], false)] [] (replica 2 4 2 [])))
  = Some false.
Proof.
  destruct (@propose_spec _ sample_collaborators
              [([], false); ([sample_request], false)] [] (replica 2 4 2 [])
              ltac:(discriminate)) as [Hprop _].
  apply (Hprop (controller.currView (run_loop.ctl (replica 2 4 2 [])))
               {| Payload := sample_request; Header := []; Metadata := [];
                  VerificationSequence := 0 |}).
  vm_compute. do 5 right. left. reflexivity.
Defined.

(** Under the cached sequence nothing is done; under a new one the
    revoked request of the remainder is warned about and the other one
    goes back to the batcher. *)
Lemma maybePruneRevokedRequests_spec_witness :
  run_loop.calls_of
    (@run_loop.maybePruneRevokedRequests _ sample_collaborators 0
       [revoked_request; sample_request] (replica 2 4 2 [sample_request]))
  = [run_loop.Verifier_VerificationSequence 0] /\
  controller.verificationSequence
    (run_loop.ctl
       (run_loop.replica_of
          (@run_loop.maybePruneRevokedRequests _ sample_collaborators 1
             [revoked_request; sample_request] (replica 2 4 2 [sample_request]))))
  = 1 /\
  run_loop.calls_of
    (@run_loop.maybePruneRevokedRequests _ sample_collaborators 1
       [revoked_request; sample_request] (replica 2 4 2 [sample_request]))
  = [run_loop.Verifier_VerificationSequence 1;
     run_loop.Logger_Infof "Verification sequence changed: %d --> %d"
       [controller.ArgUint64 0; controller.ArgUint64 1];
     run_loop.RequestPool_Prune;
     run_loop.Batcher_PopRemainder [revoked_request; sample_request];
     run_loop.Controller_call
       (controller.Logger_Warnf "Revoking request %v due to %v"
          [controller.ArgInfo (@controller.RequestID plain_inspector revoked_request);
           @controller.ArgError (text_pool 200) ("revoked"%string : string)]);
     run_loop.Batcher_BatchRemainder [sample_request]].
Proof.
  pose proof (@maybePruneRevokedRequests_spec _ sample_collaborators 1
                [revoked_request; sample_request] (replica 2 4 2 [sample_request]))
    as (_ & _ & Hchanged & _).
  destruct (Hchanged ltac:(discriminate)) as (Hreplica & Hcalls & _).
  split; [| split].
  - apply (@maybePruneRevokedRequests_spec _ sample_collaborators 0
             [revoked_request; sample_request] (replica 2 4 2 [sample_request])).
    reflexivity.
  - rewrite Hreplica. reflexivity.
  - rewrite Hcalls. reflexivity.
Defined.

(** The request is removed once; the second removal fails, is logged, and
    the third removal is still made. *)
Lemma removeDeliveredFromPool_spec_witness :
  run_loop.calls_of
    (@run_loop.removeDeliveredFromPool _ sample_collaborators
       [sample_info; sample_info; sample_info] (replica 2 4 2 [sample_request]))
  = [@run_loop.RequestPool_RemoveRequest (text_pool 200) sample_info None;
     @run_loop.RequestPool_RemoveRequest (text_pool 200) sample_info
       (Some ("request not found"%string : string));
     run_loop.Controller_call
       (controller.Logger_Warnf
          "Error during remove of request %s from the pool : %s"
          [controller.ArgInfo sample_info;
           @controller.ArgError (text_pool 200) ("request not found"%string : string)]);
     @run_loop.RequestPool_RemoveRequest (text_pool 200) sample_info
       (Some ("request not found"%string : string));
     run_loop.Controller_call
       (controller.Logger_Warnf
          "Error during remove of request %s from the pool : %s"
          [controller.ArgInfo sample_info;
           @controller.ArgError (text_pool 200) ("request not found"%string : string)])].
Proof.
  destruct (@removeDeliveredFromPool_spec _ sample_collaborators
              [sample_info; sample_info; sample_info] (replica 2 4 2 [sample_request]))
    as (_ & _ & Hcalls & _).
  rewrite Hcalls. reflexivity.
Defined.

Lemma run_leaderToken_only_for_leader_witness :
  LeaderToken.only_for_leader
    (run_loop.ctl
       (run_loop.replica_of
          (@run_loop.run _ sample_collaborators sample_schedule
             (replica 2 4 2 [sample_request])))).
Proof.
  apply (@run_leaderToken_only_for_leader _ sample_collaborators).
  intros _. split; [discriminate | reflexivity].
Defined.

Lemma run_exits_after_abort_witness :
  run_loop.stopChan
    (run_loop.replica_of
       (@run_loop.run _ sample_collaborators sample_schedule
          (replica 2 4 2 [sample_request])))
  = Some true.
Proof.
  apply (@run_exits_after_abort _ sample_collaborators sample_schedule
           (replica 2 4 2 [sample_request])).
  reflexivity.
Defined.

Lemma Start_opts_order_iff_witness :
  ~ (consensus.RequestTimeout (consensus.Start_opts 4)
       < consensus.LeaderFwdTimeout (consensus.Start_opts 4)
       < consensus.AutoRemoveTimeout (consensus.Start_opts 4)).
Proof.
  intros Hord. apply (proj1 (Start_opts_order_iff 4)) in Hord.
  apply Hord. reflexivity.
Defined.
